(** * CoinCounter: bank-statement ingestion and category matching

    A shallow embedding of the core of the CoinCounter repository:

    - [coin_desk/utils/embedding_cache.py] and [coin_desk/utils/embedding.py]
      (the embedding cache and the cache-first provider adapter),
    - [coin_desk/utils/nlp_processor.py] (the lexical processor and the
      category matcher),
    - [coin_desk/scripts/bank_fetch.py] (statement polling, the per-account
      run and the ingestion of one transaction payload).

    Conventions.  A Python [str] is a Rocq [string] whose characters are the
    code points U+0000..U+00FF, one [ascii] per code point; the character
    classes below are those of CPython on that range.  A Python [float] score
    is an exact rational [Q].  Stateful code is written in a small
    state-and-exception monad over an explicit [World]. *)

From Stdlib Require Import String Ascii List ZArith QArith Qminmax Lqa Lia Bool.
From stdpp Require Import base option list gmap strings.

Local Open Scope string_scope.
Local Open Scope list_scope.
Local Open Scope nat_scope.

(** ** Python string primitives *)

Module PyStr.

(** [c.isspace()] for a code point below 256. *)
Definition isspace (c : ascii) : bool :=
  let n := nat_of_ascii c in
  ((9 <=? n) && (n <=? 13)) || ((28 <=? n) && (n <=? 32))
  || (n =? 133) || (n =? 160).

(** [s.lstrip()], [s.rstrip()], [s.strip()] with no argument. *)
Fixpoint lstrip (s : string) : string :=
  match s with
  | EmptyString => EmptyString
  | String c s' => if isspace c then lstrip s' else s
  end.

Fixpoint rstrip (s : string) : string :=
  match s with
  | EmptyString => EmptyString
  | String c s' =>
      match rstrip s' with
      | EmptyString => if isspace c then EmptyString else String c EmptyString
      | r => String c r
      end
  end.

Definition strip (s : string) : string := rstrip (lstrip s).

(** [s.split()] with no argument: the maximal runs of non-space
    characters; [cur] is the run being read. *)
Fixpoint split_from (cur : string) (s : string) : list string :=
  match s with
  | EmptyString => match cur with EmptyString => [] | _ => [cur] end
  | String c s' =>
      if isspace c
      then match cur with
           | EmptyString => split_from EmptyString s'
           | _ => cur :: split_from EmptyString s'
           end
      else split_from (cur ++ String c EmptyString) s'
  end.

Definition split (s : string) : list string := split_from EmptyString s.

(** [c.lower()] for a code point below 256: A-Z and the Latin-1 capitals
    (U+00C0..U+00DE except the multiplication sign U+00D7). *)
Definition lower_char (c : ascii) : ascii :=
  let n := nat_of_ascii c in
  if ((65 <=? n) && (n <=? 90))
     || ((192 <=? n) && (n <=? 222) && negb (n =? 215))
  then ascii_of_nat (n + 32) else c.

Fixpoint lower (s : string) : string :=
  match s with
  | EmptyString => EmptyString
  | String c s' => String (lower_char c) (lower s')
  end.

(** [needle in hay] on strings. *)
Fixpoint contains (needle hay : string) : bool :=
  String.prefix needle hay
  || match hay with
     | EmptyString => false
     | String _ hay' => contains needle hay'
     end.

(** The character class of [re.split(r'[.!?;,\n]+', text)]. *)
Definition is_sentence_sep (c : ascii) : bool :=
  let n := nat_of_ascii c in
  (n =? 46) || (n =? 33) || (n =? 63) || (n =? 59) || (n =? 44) || (n =? 10).

(** [re.split(r'[.!?;,\n]+', s)]: [cur] is the fragment being read and
    [in_sep] tells that the previous character closed a fragment.  A
    leading or trailing separator run yields an empty first or last
    fragment, as in Python. *)
Fixpoint re_split_from (cur : string) (in_sep : bool) (s : string)
  : list string :=
  match s with
  | EmptyString => [cur]
  | String c s' =>
      if is_sentence_sep c
      then if in_sep
           then re_split_from EmptyString true s'
           else cur :: re_split_from EmptyString true s'
      else re_split_from (cur ++ String c EmptyString) false s'
  end.

Definition re_split_sentences (s : string) : list string :=
  re_split_from EmptyString false s.

(** [\w] and [\s] of Python's [re] on [str], for a code point below 256. *)
Definition is_word_char (c : ascii) : bool :=
  let n := nat_of_ascii c in
  ((48 <=? n) && (n <=? 57)) || ((65 <=? n) && (n <=? 90)) || (n =? 95)
  || ((97 <=? n) && (n <=? 122))
  || (n =? 170) || (n =? 178) || (n =? 179) || (n =? 181) || (n =? 185)
  || (n =? 186) || ((188 <=? n) && (n <=? 190))
  || ((192 <=? n) && (n <=? 255) && negb (n =? 215) && negb (n =? 247)).

(** [re.sub(r'[^\w\s]', ' ', s)]. *)
Fixpoint sub_non_word (s : string) : string :=
  match s with
  | EmptyString => EmptyString
  | String c s' =>
      String (if is_word_char c || isspace c then c else " "%char)
             (sub_non_word s')
  end.

(** Truthiness of a string: [if s:]. *)
Definition truthy (s : string) : bool :=
  match s with EmptyString => false | _ => true end.

End PyStr.

(** ** Scores

    Python's [min(a, b)] and [max(a, b)] return the first argument unless
    the second is strictly smaller (respectively larger). *)

Definition Qltb (a b : Q) : bool := negb (Qle_bool b a).

Definition py_min (a b : Q) : Q := if Qltb b a then b else a.
Definition py_max (a b : Q) : Q := if Qltb a b then b else a.

(** ** Data model *)

(** [datetime] values as produced by [strptime(..., '%Y-%m-%d')] followed by
    [timezone.make_aware]. *)
Record DateTime := mkDateTime { dt_year : Z; dt_month : Z; dt_day : Z }.

#[global] Instance DateTime_eq_dec : EqDecision DateTime.
Proof. solve_decision. Defined.

(** [coin_desk/models.py]: the rows the core reads and writes.  A foreign
    key to [ExpenseCategory] is the category's unique name; a foreign key to
    [Contractor] is the row's primary key. *)
Record Contractor := mkContractor {
  contractor_pk : nat;
  contractor_name : string;
  contractor_inn_field : option string;
  contractor_bic_field : string
}.

Record Transaction := mkTransaction {
  batch_id : string;
  date : DateTime;
  month : option Z;
  year : option Z;
  account : string;
  contractor : option nat;
  contractor_inn : string;
  contractor_bic : string;
  contractor_corr_account : string;
  contractor_bank_name : string;
  contractor_account : string;
  debit : option Q;
  credit : option Q;
  purpose : string;
  expense_category : option string;
  category_source : option string;
  notified : bool;
  unloaded : bool
}.

(** An embedding vector, as returned by the provider and as stored (JSON
    encoded) in the [embedding_cache] table. *)
Abbreviation Embedding := (list Q).

(** Outbound HTTP requests, in the order they are sent. *)
Inductive Request :=
| PostStatement (account_id start_date end_date : string)
| GetStatement (account_id statement_id : string).

(** The mutable world: the Django tables, the sqlite embedding cache, and
    the logs of the calls made to the embedding provider and to the bank. *)
Record World := mkWorld {
  transactions : list Transaction;
  contractors : list Contractor;
  expense_categories : list string;
  expense_mappings : gmap string string;
  embedding_cache : gmap string Embedding;
  provider_calls : list string;
  requests : list Request
}.

(** ** Exceptions and the monad of stateful code *)

Inductive exn :=
| RuntimeError            (* OpenAI client not initialised *)
| ProviderError           (* the embeddings request failed *)
| LookupError             (* KeyError / IndexError on a response *)
| ValueError              (* strptime on a malformed date *)
| CreateStatementFailed   (* create_statement: status code is not 200 *)
| StatementError          (* get_statement: status 'Error' *)
| StatementTimeout        (* get_statement: not ready after max_attempts *)
| UnboundLocalError.

Inductive result (A : Type) :=
| Ok (a : A)
| Raise (e : exn).

Arguments Ok {A} a.
Arguments Raise {A} e.

Definition M (A : Type) : Type := World -> result A * World.

Definition ret {A} (a : A) : M A := fun w => (Ok a, w).

Definition bind {A B} (m : M A) (k : A -> M B) : M B :=
  fun w => match m w with
           | (Ok a, w') => k a w'
           | (Raise e, w') => (Raise e, w')
           end.

Definition raise {A} (e : exn) : M A := fun w => (Raise e, w).

(** [try: body except Exception: handler]; what [body] did to the world
    before raising stays done. *)
Definition try_except {A} (body : M A) (handler : exn -> M A) : M A :=
  fun w => match body w with
           | (Ok a, w') => (Ok a, w')
           | (Raise e, w') => handler e w'
           end.

Notation "x <- c ;; k" := (bind c (fun x => k))
  (at level 100, c at next level, right associativity).
Notation "c ;;; k" := (bind c (fun _ => k))
  (at level 100, right associativity).

(** ** The environment: settings, linguistic resources, remote services *)

(** [pymorphy2]: what [morph.parse(word)[0]] gives ([None] when it raises). *)
Record Parse := mkParse {
  normal_form : string;
  tag_NOUN : bool;
  tag_VERB : bool
}.

Definition MorphAnalyzer : Type := string -> option Parse.

(** [ruwordnet]: [get_synsets(word)], each synset given by the lemmas of its
    words ([None] when the lookup raises). *)
Definition RuWordNet : Type := string -> option (list (list string)).

Record NLPProcessor := mkNLPProcessor {
  morph : option MorphAnalyzer;
  wordnet : option RuWordNet
}.

(** One raw transaction object of the bank API (a JSON object: every key
    may be absent). *)
Record Party := mkParty { party_inn : option string; party_name : option string }.

Record Agent := mkAgent {
  agent_identification : option string;
  agent_accountIdentification : option string;
  agent_name : option string
}.

Record AccountData := mkAccountData { account_identification : option string }.

Record AmountData := mkAmountData { amount_amount : option Q }.

Record TransactionData := mkTransactionData {
  documentProcessDate : option string;
  description : option string;
  Amount : option AmountData;
  creditDebitIndicator : option string;
  CreditorParty : option Party;
  CreditorAgent : option Agent;
  CreditorAccount : option AccountData;
  DebtorParty : option Party;
  DebtorAgent : option Agent;
  DebtorAccount : option AccountData
}.

(** [response['Data']['Statement'][0]] of a get-statement response. *)
Record Statement := mkStatement {
  statement_status : option string;
  statement_Transaction : option (list TransactionData)
}.

Record Settings := mkSettings {
  BANK_ACCOUNTS : list string;
  BANK_BIC : string;
  BANK_STATEMENT_MAX_ATTEMPTS : Z;
  EMBEDDING_SIMILARITY_THRESHOLD : Q
}.

Record Env := mkEnv {
  settings : Settings;
  (** [coin_desk/scripts/keywords.py], in iteration order. *)
  CATEGORY_KEYWORDS : list (string * list string);
  nlp : NLPProcessor;
  (** [datetime.strptime(s, '%Y-%m-%d')] then [make_aware]. *)
  strptime : string -> option DateTime;
  (** whether [OpenAI()] could be constructed. *)
  client : bool;
  (** [client.embeddings.create(...).data[0].embedding] for the n-th call
      made to the provider ([None] when the request raises). *)
  embeddings_create : nat -> string -> option Embedding;
  (** [sklearn]'s cosine similarity of two vectors. *)
  cosine_similarity : Embedding -> Embedding -> Q;
  (** [POST .../statements]: status code and
      [response['Data']['Statement']['statementId']]. *)
  post_statement : string -> string -> string -> Z * option string;
  (** [GET .../statements/{id}], n-th poll of one [get_statement] call:
      [response['Data']['Statement'][0]] when present. *)
  get_statement_response : string -> string -> nat -> option Statement
}.

(** Field updates of the world. *)
Definition with_embedding_cache (c : gmap string Embedding) (w : World) : World :=
  mkWorld (transactions w) (contractors w) (expense_categories w)
          (expense_mappings w) c (provider_calls w) (requests w).

Definition with_provider_calls (l : list string) (w : World) : World :=
  mkWorld (transactions w) (contractors w) (expense_categories w)
          (expense_mappings w) (embedding_cache w) l (requests w).

Definition with_requests (l : list Request) (w : World) : World :=
  mkWorld (transactions w) (contractors w) (expense_categories w)
          (expense_mappings w) (embedding_cache w) (provider_calls w) l.

Definition with_transactions (l : list Transaction) (w : World) : World :=
  mkWorld l (contractors w) (expense_categories w)
          (expense_mappings w) (embedding_cache w) (provider_calls w)
          (requests w).

Definition with_contractors (l : list Contractor) (w : World) : World :=
  mkWorld (transactions w) l (expense_categories w)
          (expense_mappings w) (embedding_cache w) (provider_calls w)
          (requests w).

Definition with_expense_categories (l : list string) (w : World) : World :=
  mkWorld (transactions w) (contractors w) l
          (expense_mappings w) (embedding_cache w) (provider_calls w)
          (requests w).

(** ** coin_desk/utils/embedding_cache.py

    The sqlite file is taken to be readable and writable, so the handlers
    that log and swallow a sqlite error do not run. *)

(** [SELECT embedding FROM embedding_cache WHERE text = ?] *)
Definition get_cached_embedding (text : string) : M (option Embedding) :=
  fun w => (Ok (embedding_cache w !! text), w).

(** [INSERT OR REPLACE INTO embedding_cache (text, embedding) VALUES (?, ?)] *)
Definition save_embedding (text : string) (embedding : Embedding) : M unit :=
  fun w => (Ok tt, with_embedding_cache (<[text := embedding]> (embedding_cache w)) w).

(** ** coin_desk/utils/embedding.py *)

(** [client.embeddings.create(model=EMBEDDING_MODEL, input=text)]: one call
    to the external provider, recorded in [provider_calls]. *)
Definition request_embedding (env : Env) (text : string) : M Embedding :=
  fun w =>
    let n := length (provider_calls w) in
    let w' := with_provider_calls (provider_calls w ++ [text]) w in
    match embeddings_create env n text with
    | Some embedding => (Ok embedding, w')
    | None => (Raise ProviderError, w')
    end.

(** Truthiness of a list: [if cached:]. *)
Definition list_truthy {A} (l : list A) : bool :=
  match l with [] => false | _ => true end.

(** [get_embedding], embedding.py lines 30-65. *)
Definition get_embedding (env : Env) (text : string) : M Embedding :=
  if negb (client env) then raise RuntimeError
  else
    (* the request to the API, made on a cache miss *)
    let request :=
      try_except
        (embedding <- request_embedding env text ;;
         save_embedding text embedding ;;;
         ret embedding)
        (fun e => raise e) in
    cached <- get_cached_embedding text ;;
    match cached with
    | Some e => if list_truthy e then ret e else request
    | None => request
    end.

(** [calculate_similarity], embedding.py lines 68-89. *)
Definition calculate_similarity (env : Env) (text1 text2 : string) : M Q :=
  emb1 <- get_embedding env text1 ;;
  emb2 <- get_embedding env text2 ;;
  ret (cosine_similarity env emb1 emb2).

(** ** coin_desk/utils/nlp_processor.py: NLPProcessor *)

(** [NLPProcessor.lemmatize], lines 48-67 (the [lru_cache] memoises a
    function of the word and is not modelled). *)
Definition lemmatize (self : NLPProcessor) (word : string) : string :=
  match morph self with
  | None => PyStr.lower word
  | Some m =>
      if negb (PyStr.truthy word) then PyStr.lower word
      else match m word with
           | Some parsed => normal_form parsed
           | None => PyStr.lower word
           end
  end.

(** The inner loop of [get_synonyms]: add the lemmas of one synset, leaving
    the loop as soon as the set has [limit] elements. *)
Fixpoint add_synset_words (limit : Z) (words : list string)
    (synonyms : gset string) : gset string :=
  match words with
  | [] => synonyms
  | lemma :: words' =>
      let synonyms := {[ lemma ]} ∪ synonyms in
      if (limit <=? Z.of_nat (size synonyms))%Z then synonyms
      else add_synset_words limit words' synonyms
  end.

Fixpoint add_synsets (limit : Z) (synsets : list (list string))
    (synonyms : gset string) : gset string :=
  match synsets with
  | [] => synonyms
  | synset :: synsets' =>
      let synonyms := add_synset_words limit synset synonyms in
      if (limit <=? Z.of_nat (size synonyms))%Z then synonyms
      else add_synsets limit synsets' synonyms
  end.

(** [NLPProcessor.get_synonyms], lines 69-99. *)
Definition get_synonyms (self : NLPProcessor) (word : string) (limit : Z)
  : gset string :=
  match wordnet self with
  | None => {[ word ]}
  | Some wn =>
      match wn word with
      | None => {[ word ]}
      | Some synsets =>
          let synonyms := add_synsets limit (take 3 synsets) ∅ in
          if bool_decide (synonyms = ∅) then {[ word ]} else synonyms
      end
  end.

(** [NLPProcessor.split_into_sentences], lines 101-119. *)
Definition split_into_sentences (text : string) : list string :=
  if negb (PyStr.truthy text) then []
  else
    let sentences := PyStr.re_split_sentences text in
    let sentences :=
      map PyStr.strip
          (List.filter (fun s => 2 <? String.length (PyStr.strip s)) sentences) in
    if list_truthy sentences then sentences else [text].

Fixpoint extract_keywords_loop (m : MorphAnalyzer) (words : list string)
  : list string :=
  match words with
  | [] => []
  | word :: words' =>
      if String.length word <? 3 then extract_keywords_loop m words'
      else match m word with
           | Some parsed =>
               if tag_NOUN parsed || tag_VERB parsed
               then normal_form parsed :: extract_keywords_loop m words'
               else extract_keywords_loop m words'
           | None => extract_keywords_loop m words'
           end
  end.

(** [NLPProcessor.extract_keywords], lines 121-151. *)
Definition extract_keywords (self : NLPProcessor) (text : string) : list string :=
  match morph self with
  | None => PyStr.split (PyStr.lower text)
  | Some m =>
      let clean_text := PyStr.sub_non_word (PyStr.lower text) in
      extract_keywords_loop m (PyStr.split clean_text)
  end.

(** [NLPProcessor.expand_query_with_synonyms], lines 153-170 (limit 10 is
    the default of [get_synonyms]). *)
Definition expand_query_with_synonyms (self : NLPProcessor) (text : string)
  : gset string :=
  let keywords := extract_keywords self text in
  fold_left (fun expanded keyword => expanded ∪ get_synonyms self keyword 10)
            keywords (list_to_set keywords).

(** ** coin_desk/utils/nlp_processor.py: AdvancedCategoryMatcher *)

(** The [boosts] dictionary. *)
Definition no_boosts : gmap string bool :=
  {[ "exact_match" := false; "lemma_match" := false; "synonym_match" := false ]}.

(** [AdvancedCategoryMatcher.calculate_match_score], lines 182-231; [self]
    is the matcher's [nlp]. *)
Definition calculate_match_score (self : NLPProcessor)
    (transaction_text category_keyword : string) (base_similarity : Q)
  : Q * gmap string bool :=
  let boosts := no_boosts in
  let text_lower := PyStr.lower transaction_text in
  let keyword_lower := PyStr.lower category_keyword in
  (* 1. exact match *)
  let '(boosts, base_similarity) :=
    if PyStr.contains keyword_lower text_lower
    then (<[ "exact_match" := true ]> boosts, (base_similarity + 0.25)%Q)
    else (boosts, base_similarity) in
  (* 2. lemma match *)
  let text_lemmas : gset string :=
    list_to_set
      (map (lemmatize self)
           (List.filter (fun w => 2 <? String.length w) (PyStr.split text_lower))) in
  let keyword_lemma := lemmatize self keyword_lower in
  let '(boosts, base_similarity) :=
    if bool_decide (keyword_lemma ∈ text_lemmas)
    then (<[ "lemma_match" := true ]> boosts, (base_similarity + 0.15)%Q)
    else (boosts, base_similarity) in
  (* 3. synonym match *)
  let keyword_synonyms := expand_query_with_synonyms self keyword_lower in
  let '(boosts, base_similarity) :=
    if bool_decide (text_lemmas ∩ keyword_synonyms ≠ ∅)
    then (<[ "synonym_match" := true ]> boosts, (base_similarity + 0.10)%Q)
    else (boosts, base_similarity) in
  let final_score := py_min base_similarity 1%Q in
  (final_score, boosts).

(** The best result so far: [(best_category, best_score, best_boosts)]. *)
Definition Best : Type := option string * Q * gmap string bool.

(** [for sentence in sentences: ...] *)
Fixpoint max_sentence_similarity (env : Env) (keyword : string)
    (sentences : list string) (max_embedding_similarity : Q) : M Q :=
  match sentences with
  | [] => ret max_embedding_similarity
  | sentence :: sentences' =>
      similarity <- calculate_similarity env sentence keyword ;;
      max_sentence_similarity env keyword sentences'
        (py_max max_embedding_similarity similarity)
  end.

(** [for keyword in keywords: ...] *)
Fixpoint scan_keywords (env : Env) (transaction_text : string)
    (sentences : list string) (category_name : string)
    (keywords : list string) (best : Best) : M Best :=
  match keywords with
  | [] => ret best
  | keyword :: keywords' =>
      max_embedding_similarity <-
        max_sentence_similarity env keyword sentences 0%Q ;;
      let '(final_score, boosts) :=
        calculate_match_score (nlp env) transaction_text keyword
                              max_embedding_similarity in
      let '(best_category, best_score, best_boosts) := best in
      scan_keywords env transaction_text sentences category_name keywords'
        (if Qltb best_score final_score
         then (Some category_name, final_score, boosts)
         else best)
  end.

(** [for category_name, keywords in category_keywords.items(): ...] *)
Fixpoint scan_categories (env : Env) (transaction_text : string)
    (sentences : list string) (items : list (string * list string))
    (best : Best) : M Best :=
  match items with
  | [] => ret best
  | (category_name, keywords) :: items' =>
      best <- scan_keywords env transaction_text sentences category_name
                            keywords best ;;
      scan_categories env transaction_text sentences items' best
  end.

(** [AdvancedCategoryMatcher.find_best_category], lines 233-284. *)
Definition find_best_category (env : Env) (transaction_text : string)
    (category_keywords : list (string * list string)) (threshold : Q)
  : M Best :=
  let sentences := split_into_sentences transaction_text in
  best <- scan_categories env transaction_text sentences category_keywords
                          (None, 0%Q, ∅) ;;
  let '(best_category, best_score, best_boosts) := best in
  if Qle_bool threshold best_score
  then ret (best_category, best_score, best_boosts)
  else ret (None, 0%Q, ∅).

(** ** coin_desk/scripts/bank_fetch.py: statement acquisition *)

(** [except (KeyError, IndexError) as e: ...]: the handler runs for a lookup
    error only; any other exception propagates untouched. *)
Definition try_except_lookup {A} (body : M A) (handler : exn -> M A) : M A :=
  try_except body
    (fun e => match e with LookupError => handler e | _ => raise e end).

Definition requests_post (env : Env) (account_id start_date end_date : string)
  : M (Z * option string) :=
  fun w =>
    (Ok (post_statement env account_id start_date end_date),
     with_requests (requests w ++ [PostStatement account_id start_date end_date]) w).

Definition requests_get (env : Env) (account_id statement_id : string) (n : nat)
  : M (option Statement) :=
  fun w =>
    (Ok (get_statement_response env account_id statement_id n),
     with_requests (requests w ++ [GetStatement account_id statement_id]) w).

(** [Tochka.create_statement], lines 44-82.  Returns the response, here its
    [statementId] path. *)
Definition create_statement (env : Env) (account_id start_date end_date : string)
  : M (option string) :=
  r <- requests_post env account_id start_date end_date ;;
  let '(status_code, response) := r in
  if negb (status_code =? 200)%Z then raise CreateStatementFailed
  else ret response.

Definition is_Ready (status : option string) : bool :=
  match status with Some s => String.eqb s "Ready" | None => false end.

(** [while status != 'Ready' and attempts < max_attempts: ...], with
    [remaining = max_attempts - attempts]; [time.sleep(1)] has no effect on
    the world. *)
Fixpoint get_statement_loop (env : Env) (account_id statement_id : string)
    (remaining attempts : nat) (status : option string)
    (response : option Statement) : M (option string * option Statement) :=
  if is_Ready status then ret (status, response)
  else
    match remaining with
    | O => ret (status, response)
    | S remaining' =>
        response <- requests_get env account_id statement_id attempts ;;
        status <-
          try_except_lookup
            (match response with
             | Some statement =>
                 match statement_status statement with
                 | Some status => ret status
                 | None => raise LookupError
                 end
             | None => raise LookupError
             end)
            (fun e => raise e) ;;
        if String.eqb status "Error" then raise StatementError
        else
          get_statement_loop env account_id statement_id remaining'
                             (S attempts) (Some status) response
    end.

(** [Tochka.get_statement], lines 85-136.  After the loop [response] is
    bound whenever the status is ['Ready']. *)
Definition get_statement (env : Env) (account_id statement_id : string)
  : M Statement :=
  let max_attempts := BANK_STATEMENT_MAX_ATTEMPTS (settings env) in
  r <- get_statement_loop env account_id statement_id
                          (Z.to_nat max_attempts) 0 None None ;;
  let '(status, response) := r in
  if negb (is_Ready status) then raise StatementTimeout
  else match response with
       | Some statement => ret statement
       | None => raise UnboundLocalError
       end.

(** ** coin_desk/scripts/bank_fetch.py: ingestion of one payload *)

(** The name of the revenue category, kept as the bytes of the source
    literal: category names are only stored and compared for equality. *)
Definition REVENUE_CATEGORY : string := "Выручка".

(** [Transaction.objects.filter(date=, contractor_inn=, contractor_bic=,
    purpose=).exists()] *)
Definition same_key (d : DateTime) (inn bic p : string) (t : Transaction) : bool :=
  bool_decide (date t = d) && String.eqb (contractor_inn t) inn
  && String.eqb (contractor_bic t) bic && String.eqb (purpose t) p.

Definition transaction_exists (d : DateTime) (inn bic p : string) : M bool :=
  fun w => (Ok (existsb (same_key d inn bic p) (transactions w)), w).

(** [Contractor.objects.filter(inn=inn).first()], the model's ordering being
    by name (rows of equal name in insertion order). *)
Definition contractor_first (inn : string) : M (option Contractor) :=
  fun w =>
    (Ok (fold_left
           (fun best c =>
              if bool_decide (contractor_inn_field c = Some inn)
              then match best with
                   | None => Some c
                   | Some b =>
                       if String.ltb (contractor_name c) (contractor_name b)
                       then Some c else Some b
                   end
              else best)
           (contractors w) None),
     w).

Definition contractor_create (name inn bic : string) : M Contractor :=
  fun w =>
    let c := mkContractor (length (contractors w)) name (Some inn) bic in
    (Ok c, with_contractors (contractors w ++ [c]) w).

(** [ExpenseCategory.objects.get_or_create(name=name)], giving the row. *)
Definition expense_category_get_or_create (name : string) : M string :=
  fun w =>
    if existsb (String.eqb name) (expense_categories w) then (Ok name, w)
    else (Ok name, with_expense_categories (expense_categories w ++ [name]) w).

(** [ContractorExpenseMapping.objects.filter(inn=inn).first()], giving the
    mapped category ([inn] is unique in that table). *)
Definition expense_mapping_first (inn : string) : M (option string) :=
  fun w => (Ok (expense_mappings w !! inn), w).

(** [Transaction.objects.create(...)]; [save] fills month and year. *)
Definition transaction_create (t : Transaction) : M unit :=
  fun w => (Ok tt, with_transactions (transactions w ++ [t]) w).

Definition empty_party : Party := mkParty None None.
Definition empty_agent : Agent := mkAgent None None None.
Definition empty_account : AccountData := mkAccountData None.

(** [d.get(key, "").strip()] *)
Definition get_strip (v : option string) : string := PyStr.strip (default "" v).

(** Truthiness of an optional string: [if best_category_name:]. *)
Definition opt_truthy (o : option string) : bool :=
  match o with Some s => PyStr.truthy s | None => false end.

Definition is_direction (direction : option string) (d : string) : bool :=
  match direction with Some s => String.eqb s d | None => false end.

(** The block "Find or create Contractor (if INN exists)". *)
Definition find_or_create_contractor (party : Party)
    (contractor_inn contractor_bic : string) : M (option Contractor) :=
  if PyStr.truthy contractor_inn
  then
    found <- contractor_first contractor_inn ;;
    match found with
    | Some c => ret (Some c)
    | None =>
        let contractor_name := get_strip (party_name party) in
        c <- contractor_create
               (if PyStr.truthy contractor_name then contractor_name
                else "Unknown contractor")
               contractor_inn contractor_bic ;;
        ret (Some c)
    end
  else ret None.

(** The [if direction == "Credit": ... elif direction == "Debit": ...] chain,
    giving [(expense_category, category_source)]. *)
Definition assign_category (env : Env) (direction : option string)
    (purpose contractor_inn : string) : M (option string * option string) :=
  (* 1. incoming transactions: the default category *)
  if is_direction direction "Credit"
  then
    expense_category <- expense_category_get_or_create REVENUE_CATEGORY ;;
    ret (Some expense_category, Some "default")
  (* 2. outgoing transactions: the matcher *)
  else if is_direction direction "Debit"
  then
    best <- find_best_category env purpose (CATEGORY_KEYWORDS env)
              (EMBEDDING_SIMILARITY_THRESHOLD (settings env)) ;;
    let '(best_category_name, final_score, boosts) := best in
    if opt_truthy best_category_name
    then
      expense_category <-
        expense_category_get_or_create (default "" best_category_name) ;;
      ret (Some expense_category, Some "nlp")
    else
      (* 3. fallback: the INN mapping *)
      if PyStr.truthy contractor_inn
      then
        mapping <- expense_mapping_first contractor_inn ;;
        match mapping with
        | Some expense_category => ret (Some expense_category, Some "map")
        | None => ret (None, None)
        end
      else ret (None, None)
  else ret (None, None).

(** [Tochka._save_transaction], lines 171-348. *)
Definition _save_transaction (env : Env) (transaction_data : TransactionData)
    (account batch_id : string) : M unit :=
  try_except
    (let date_str := default "" (documentProcessDate transaction_data) in
     date <- match strptime env date_str with
             | Some d => ret d
             | None => raise ValueError
             end ;;
     let purpose := get_strip (description transaction_data) in
     let amount :=
       default 0%Q
         (amount_amount (default (mkAmountData None) (Amount transaction_data))) in
     let direction := creditDebitIndicator transaction_data in
     let '(party, agent, account_data, debit, credit) :=
       if is_direction direction "Debit"
       then (default empty_party (CreditorParty transaction_data),
             default empty_agent (CreditorAgent transaction_data),
             default empty_account (CreditorAccount transaction_data),
             Some amount, None)
       else (default empty_party (DebtorParty transaction_data),
             default empty_agent (DebtorAgent transaction_data),
             default empty_account (DebtorAccount transaction_data),
             None, Some amount) in
     let contractor_inn := get_strip (party_inn party) in
     let contractor_bic := get_strip (agent_identification agent) in
     let contractor_corr_account := get_strip (agent_accountIdentification agent) in
     let contractor_bank_name := get_strip (agent_name agent) in
     let contractor_account := get_strip (account_identification account_data) in
     (* duplicate check *)
     dup <- transaction_exists date contractor_inn contractor_bic purpose ;;
     if dup then ret tt
     else
       contractor <- find_or_create_contractor party contractor_inn contractor_bic ;;
       cat <- assign_category env direction purpose contractor_inn ;;
       let '(expense_category, category_source) := cat in
       transaction_create
         (mkTransaction batch_id date (Some (dt_month date)) (Some (dt_year date))
            account (option_map contractor_pk contractor)
            contractor_inn contractor_bic contractor_corr_account
            contractor_bank_name contractor_account debit credit purpose
            expense_category category_source false false))
    (fun e => ret tt).

(** ** coin_desk/scripts/bank_fetch.py: the run over the accounts *)

(** [for transaction in entries: self._save_transaction(...)] *)
Fixpoint save_entries (env : Env) (entries : list TransactionData)
    (account batch_id : string) : M unit :=
  match entries with
  | [] => ret tt
  | transaction :: entries' =>
      _save_transaction env transaction account batch_id ;;;
      save_entries env entries' account batch_id
  end.

(** The body of the loop of [fetch_and_save_statements] for one account. *)
Definition fetch_account (env : Env) (start_date end_date batch_id : string)
    (account : string) : M unit :=
  let account_id := (account ++ "/" ++ BANK_BIC (settings env))%string in
  response <- create_statement env account_id start_date end_date ;;
  try_except_lookup
    (statement_id <- match response with
                     | Some statement_id => ret statement_id
                     | None => raise LookupError
                     end ;;
     statement_data <- get_statement env account_id statement_id ;;
     let entries := default [] (statement_Transaction statement_data) in
     save_entries env entries account batch_id)
    (fun e => raise e).

(** [for account in settings.BANK_ACCOUNTS: ...] *)
Fixpoint fetch_accounts (env : Env) (start_date end_date batch_id : string)
    (accounts : list string) : M unit :=
  match accounts with
  | [] => ret tt
  | account :: accounts' =>
      fetch_account env start_date end_date batch_id account ;;;
      fetch_accounts env start_date end_date batch_id accounts'
  end.

(** [Tochka.fetch_and_save_statements], lines 138-169. *)
Definition fetch_and_save_statements (env : Env)
    (start_date end_date batch_id : string) : M unit :=
  fetch_accounts env start_date end_date batch_id (BANK_ACCOUNTS (settings env)).

(** ** Vocabulary of the statements *)




(** *** Embeddings *)

(** The world after a miss that the provider answered with [e]. *)
Definition after_miss (w : World) (text : string) (e : Embedding) : World :=
  with_embedding_cache (<[text := e]> (embedding_cache w))
    (with_provider_calls (provider_calls w ++ [text]) w).

(** *** Boosts *)

(** The three boost conditions of [calculate_match_score]. *)
Definition text_lemmas (self : NLPProcessor) (text : string) : gset string :=
  list_to_set
    (map (lemmatize self)
         (List.filter (fun w => 2 <? String.length w)
                      (PyStr.split (PyStr.lower text)))).

Definition exact_match_holds (text keyword : string) : bool :=
  PyStr.contains (PyStr.lower keyword) (PyStr.lower text).

Definition lemma_match_holds (self : NLPProcessor) (text keyword : string) : bool :=
  bool_decide (lemmatize self (PyStr.lower keyword) ∈ text_lemmas self text).

Definition synonym_match_holds (self : NLPProcessor) (text keyword : string) : bool :=
  bool_decide
    (text_lemmas self text
     ∩ expand_query_with_synonyms self (PyStr.lower keyword) ≠ ∅).




Definition boosts_of (e l s : bool) : gmap string bool :=
  {[ "exact_match" := e; "lemma_match" := l; "synonym_match" := s ]}.

(** *** Candidates *)




(** A scored (category, keyword) pair: category, final score, boosts. *)
Abbreviation Candidate := (string * Q * gmap string bool)%type.








(** *** Polling *)

(** A status response that lets the loop go on: a status that is neither
    ['Ready'] nor ['Error'] (['Pending'] is one). *)
Definition still_pending (r : option Statement) : Prop :=
  exists statement status,
    r = Some statement /\ statement_status statement = Some status
    /\ status <> "Ready" /\ status <> "Error".

(** [n] status polls of one statement. *)
Definition polls (account_id statement_id : string) (n : nat) : list Request :=
  repeat (GetStatement account_id statement_id) n.

(** *** Frames *)

(** The Django tables and the request log are the same in both worlds. *)
Definition same_tables (w w' : World) : Prop :=
  transactions w' = transactions w
  /\ contractors w' = contractors w
  /\ expense_categories w' = expense_categories w
  /\ expense_mappings w' = expense_mappings w
  /\ requests w' = requests w.

(** A computation that relates every world to the world it leaves. *)
Definition preserves {A} (R : World -> World -> Prop) (m : M A) : Prop :=
  forall w, R w (snd (m w)).

(** *** Payloads and keys *)

(** What [_save_transaction] reads from a payload. *)
Definition payload_date (env : Env) (td : TransactionData) : option DateTime :=
  strptime env (default "" (documentProcessDate td)).

Definition payload_purpose (td : TransactionData) : string :=
  get_strip (description td).

Definition payload_amount (td : TransactionData) : Q :=
  default 0%Q (amount_amount (default (mkAmountData None) (Amount td))).

(** The payload is handled as outgoing: its direction is ['Debit']. *)
Definition outgoing (td : TransactionData) : bool :=
  is_direction (creditDebitIndicator td) "Debit".

Definition payload_party (td : TransactionData) : Party :=
  if outgoing td then default empty_party (CreditorParty td)
  else default empty_party (DebtorParty td).

Definition payload_agent (td : TransactionData) : Agent :=
  if outgoing td then default empty_agent (CreditorAgent td)
  else default empty_agent (DebtorAgent td).

Definition payload_account_data (td : TransactionData) : AccountData :=
  if outgoing td then default empty_account (CreditorAccount td)
  else default empty_account (DebtorAccount td).

Definition payload_inn (td : TransactionData) : string :=
  get_strip (party_inn (payload_party td)).

Definition payload_bic (td : TransactionData) : string :=
  get_strip (agent_identification (payload_agent td)).

(** The natural key: occurred date, counterparty tax id, counterparty bank
    code, purpose text. *)
Abbreviation Key := (DateTime * string * string * string)%type.

Definition transaction_key (t : Transaction) : Key :=
  (date t, contractor_inn t, contractor_bic t, purpose t).

Definition payload_key (env : Env) (td : TransactionData) : option Key :=
  match payload_date env td with
  | Some d => Some (d, payload_inn td, payload_bic td, payload_purpose td)
  | None => None
  end.

Definition keys (w : World) : list Key := map transaction_key (transactions w).

(** At most one record per natural key. *)
Definition unique_keys (w : World) : Prop := NoDup (keys w).


(** The record [_save_transaction] creates for a payload, given the parsed
    date, the contractor found or created, and the category decision. *)
Definition ingested_record (td : TransactionData) (account batch_id : string)
    (d : DateTime) (contractor : option Contractor)
    (expense_category category_source : option string) : Transaction :=
  mkTransaction batch_id d (Some (dt_month d)) (Some (dt_year d)) account
    (option_map contractor_pk contractor)
    (payload_inn td) (payload_bic td)
    (get_strip (agent_accountIdentification (payload_agent td)))
    (get_strip (agent_name (payload_agent td)))
    (get_strip (account_identification (payload_account_data td)))
    (if outgoing td then Some (payload_amount td) else None)
    (if outgoing td then None else Some (payload_amount td))
    (payload_purpose td) expense_category category_source false false.

(** The transactions and the INN mappings are the same in both worlds. *)
Definition same_records (w w' : World) : Prop :=
  transactions w' = transactions w /\ expense_mappings w' = expense_mappings w.

(** *** Requests *)

(** A request that concerns the statement of one account. *)
Definition request_for (account_id : string) (r : Request) : Prop :=
  match r with
  | PostStatement a _ _ => a = account_id
  | GetStatement a _ => a = account_id
  end.

(** [w'] is [w] with more requests sent, all for [account_id], and nothing
    else changed. *)
Definition only_requests (account_id : string) (w w' : World) : Prop :=
  exists rs,
    w' = with_requests (requests w ++ rs) w /\ Forall (request_for account_id) rs.

(** * A small environment for the examples *)

(** A bank with three accounts: the statement of account [A] cannot be
    created; the statement of [B] is pending once and then ready, with one
    incoming and one outgoing transaction; that of [E] reports an error.
    Every other statement stays pending. *)
Definition demo_settings : Settings :=
  mkSettings ["A"; "B"] "044525104" 3 0.7.

Definition demo_keywords : list (string * list string) :=
  [("Rent", ["rent"]); ("Office", ["office"]); ("Food", ["lunch"])].

Definition demo_strptime (s : string) : option DateTime :=
  if String.eqb s "2025-06-11" then Some (mkDateTime 2025 6 11) else None.

Definition demo_credit : TransactionData :=
  mkTransactionData (Some "2025-06-11") (Some " invoice 17 ")
    (Some (mkAmountData (Some 100%Q))) (Some "Credit")
    None None None
    (Some (mkParty (Some "7702") (Some "Buyer")))
    (Some (mkAgent (Some "044525225") None (Some "Bank")))
    (Some (mkAccountData (Some "40702")))%string.

Definition demo_debit : TransactionData :=
  mkTransactionData (Some "2025-06-11") (Some "misc")
    (Some (mkAmountData (Some 40%Q))) (Some "Debit")
    (Some (mkParty (Some "7701") (Some "Tax office")))
    (Some (mkAgent (Some "044525000") None None))
    None None None None.


Definition demo_undirected : TransactionData :=
  mkTransactionData (Some "2025-06-11") (Some "transfer")
    (Some (mkAmountData (Some 5%Q))) None
    (Some (mkParty (Some "7701") None)) None None
    (Some (mkParty (Some "7703") (Some "Payer")))
    (Some (mkAgent (Some "044525333") (Some "30101") (Some "Bank")))
    (Some (mkAccountData (Some "40817"))).

Definition demo_post (account_id start_date end_date : string) : Z * option string :=
  if String.eqb account_id "A/044525104" then (500%Z, None)
  else (200%Z, Some "s1").

Definition demo_get (account_id statement_id : string) (n : nat)
  : option Statement :=
  if String.eqb account_id "B/044525104"
  then if n <? 1 then Some (mkStatement (Some "Pending") None)
       else Some (mkStatement (Some "Ready") (Some [demo_credit; demo_debit]))
  else if String.eqb account_id "E/044525104"
  then Some (mkStatement (Some "Error") None)
  else Some (mkStatement (Some "Pending") None).

(** The embedding provider answers every text with the same vector, except
    the text ["down"], for which its first call fails; every similarity is
    one half. *)
Definition demo_embeddings (n : nat) (text : string) : option (list Q) :=
  if String.eqb text "down" && (n =? 0) then None else Some [1%Q].

Definition demo_env : Env :=
  mkEnv demo_settings demo_keywords (mkNLPProcessor None None) demo_strptime
        true demo_embeddings (fun _ _ => 0.5%Q) demo_post demo_get.

(** The same, with a provider that never fails. *)
Definition steady_env : Env :=
  mkEnv demo_settings demo_keywords (mkNLPProcessor None None) demo_strptime
        true (fun _ _ => Some [1%Q]) (fun _ _ => 0.5%Q) demo_post demo_get.

Definition demo_world : World :=
  mkWorld [] [] [] {[ "7701" := "Taxes" ]} ∅ [] [].

(** *** Growth of the tables *)

(** [new] is [old] followed by rows that satisfy [P] and whose keys (under
    [f]) are new and pairwise distinct. *)
Definition fresh_ext {A K : Type} (f : A -> K) (P : A -> Prop)
    (old new : list A) : Prop :=
  exists l,
    new = old ++ l
    /\ Forall P l
    /\ NoDup (map f l)
    /\ Forall (fun x => ~ In (f x) (map f old)) l.

(** Exactly one of the two amounts of a record is set. *)
Definition one_amount (t : Transaction) : Prop :=
  match debit t, credit t with
  | Some _, None => True
  | None, Some _ => True
  | _, _ => False
  end.

(** A record as one run of the fetch stores it: for one of the accounts,
    with the batch id of the run, one amount, the month and year of its
    date, and both flags cleared. *)
Definition record_ok (accounts : list string) (batch : string)
    (t : Transaction) : Prop :=
  In (account t) accounts
  /\ batch_id t = batch
  /\ one_amount t
  /\ month t = Some (dt_month (date t))
  /\ year t = Some (dt_year (date t))
  /\ notified t = false
  /\ unloaded t = false.

(** A contractor row as the ingestion creates it: a non-empty tax id and a
    non-empty name. *)
Definition contractor_ok (c : Contractor) : Prop :=
  exists inn,
    contractor_inn_field c = Some inn /\ inn <> "" /\ contractor_name c <> "".

(** The tax ids of the contractor rows. *)
Definition contractor_inns (w : World) : list (option string) :=
  map contractor_inn_field (contractors w).

(** What the ingestion may do to the tables: append records, contractors
    and categories with new keys, and nothing else (the INN mappings are
    left as they are). *)
Definition grows (P : Transaction -> Prop) (w w' : World) : Prop :=
  fresh_ext transaction_key P (transactions w) (transactions w')
  /\ fresh_ext contractor_inn_field contractor_ok (contractors w) (contractors w')
  /\ fresh_ext (fun name : string => name) (fun _ => True)
               (expense_categories w) (expense_categories w')
  /\ expense_mappings w' = expense_mappings w.

(** *** Further example environments *)

(** A bank whose third status response is not a statement at all. *)
Definition faulty_get (account_id statement_id : string) (n : nat)
  : option Statement :=
  if n <? 2 then Some (mkStatement (Some "Created") None) else None.

Definition faulty_env : Env :=
  mkEnv demo_settings demo_keywords (mkNLPProcessor None None) demo_strptime
        true (fun _ _ => Some [1%Q]) (fun _ _ => 0.5%Q) demo_post faulty_get.

(** The example bank with the accounts [B] (ready at the second poll) and
    [E] (in error). *)
Definition open_env : Env :=
  mkEnv (mkSettings ["B"; "E"] "044525104" 3 0.7) demo_keywords
        (mkNLPProcessor None None) demo_strptime
        true (fun _ _ => Some [1%Q]) (fun _ _ => 0.5%Q) demo_post demo_get.

(** The example environment without an embedding client. *)
Definition offline_env : Env :=
  mkEnv demo_settings demo_keywords (mkNLPProcessor None None) demo_strptime
        false demo_embeddings (fun _ _ => 0.5%Q) demo_post demo_get.

(** A payload whose date is not in the format [%Y-%m-%d]. *)
Definition demo_undated : TransactionData :=
  mkTransactionData (Some "11.06.2025") (Some "invoice 18")
    (Some (mkAmountData (Some 7%Q))) (Some "Credit")
    None None None
    (Some (mkParty (Some "7702") (Some "Buyer"))) None None.

(** *** The footprint of the matcher *)

(** [text] has a usable cached vector: [get_embedding] returns it without a
    request. *)
Definition cached (w : World) (text : string) : Prop :=
  exists e, embedding_cache w !! text = Some e /\ list_truthy e = true.

(** The texts a categorisation of [text] against [items] may embed: the
    sentences of the text and the keywords of the table. *)
Definition asked_texts (text : string) (items : list (string * list string))
    (t : string) : Prop :=
  In t (split_into_sentences text)
  \/ exists category keywords, In (category, keywords) items /\ In t keywords.

(** [w'] is [w] after embedding lookups of texts in [P]: the tables and
    the request log are the same, usable cache entries are kept, the cache
    differs at texts of [P] only, and the provider was asked for texts of
    [P] that had no usable entry. *)
Definition footprint (P : string -> Prop) (w w' : World) : Prop :=
  same_tables w w'
  /\ (forall t, cached w t -> embedding_cache w' !! t = embedding_cache w !! t)
  /\ (forall t, embedding_cache w' !! t = embedding_cache w !! t \/ P t)
  /\ exists l,
       provider_calls w' = provider_calls w ++ l
       /\ Forall (fun t => P t /\ ~ cached w t) l.

(** At most [n] provider calls were made between [w] and [w']. *)
Definition calls_le (n : nat) (w w' : World) : Prop :=
  length (provider_calls w') <= length (provider_calls w) + n.

(** The keywords of a table, category after category. *)
Definition all_keywords (items : list (string * list string)) : list string :=
  concat (map snd items).

(** A best-so-far triple as the scan of [find_best_category] keeps it:
    either the initial one, or a category of the table with the positive
    score, at most 1, that one of its keywords reached. *)
Definition best_ok (env : Env) (text : string)
    (items : list (string * list string)) (b : Best) : Prop :=
  match b with
  | (None, score, boosts) => score = 0%Q /\ boosts = ∅
  | (Some category, score, boosts) =>
      (0 < score)%Q /\ (score <= 1)%Q
      /\ exists keywords keyword base,
           In (category, keywords) items /\ In keyword keywords
           /\ calculate_match_score (nlp env) text keyword base = (score, boosts)
  end.

(** A world whose cache holds a vector for the text ["rent"]. *)
Definition warm_world : World :=
  mkWorld [] [] [] ∅ {[ "rent" := [1%Q] ]} [] [].


(** The account id the run uses for an account: [f"{account}/{BANK_BIC}"]. *)
Definition account_id_of (env : Env) (account : string) : string :=
  (account ++ "/" ++ BANK_BIC (settings env))%string.



(** * Sentence splitting *)

Section Sentences.












End Sentences.

(** * The embedding cache and the provider adapter *)

Section Embeddings.

Variable env : Env.
Hypothesis client_ok : client env = true.

Lemma get_embedding_hit (w : World) (text : string) (e : Embedding) :
  embedding_cache w !! text = Some e -> e <> [] ->
  get_embedding env text w = (Ok e, w).
Proof using client_ok.
  intros Hc He. unfold get_embedding, bind, get_cached_embedding.
  rewrite client_ok. cbv beta iota zeta delta [negb]. rewrite Hc.
  destruct e; [congruence | reflexivity].
Qed.

Lemma get_embedding_miss (w : World) (text : string) :
  embedding_cache w !! text = None \/ embedding_cache w !! text = Some [] ->
  get_embedding env text w =
    match embeddings_create env (length (provider_calls w)) text with
    | Some e => (Ok e, after_miss w text e)
    | None => (Raise ProviderError,
               with_provider_calls (provider_calls w ++ [text]) w)
    end.
Proof using client_ok.
  intros Hc. unfold get_embedding, bind, get_cached_embedding, try_except,
    request_embedding, save_embedding, after_miss.
  rewrite client_ok. cbv beta iota zeta delta [negb].
  destruct Hc as [Hc | Hc]; rewrite Hc; simpl;
    destruct (embeddings_create env _ text); reflexivity.
Qed.

(** C9: the lookup is cache-first with exact-text keys.  Starting from a
    cache without an entry for [text]: (a) when the provider answers with a
    vector [e] (non-empty, as every embedding is), the first call returns
    [e] after exactly one provider call and stores it under [text] only, the
    slot of any other text being left as it was; the second call returns [e]
    from the cache, with no further provider call, and a lookup of another
    uncached text is not served from that entry but goes to the provider;
    (b) when the provider fails, the error is raised, the cache is unchanged,
    and the next lookup of [text] calls the provider again. *)
Theorem get_embedding_cache_first (w : World) (text other : string) :
  embedding_cache w !! text = None ->
  other <> text ->
  let n := length (provider_calls w) in
  (forall e, embeddings_create env n text = Some e -> e <> [] ->
     exists w1,
       get_embedding env text w = (Ok e, w1)
       /\ provider_calls w1 = provider_calls w ++ [text]
       /\ embedding_cache w1 !! text = Some e
       /\ embedding_cache w1 !! other = embedding_cache w !! other
       /\ get_embedding env text w1 = (Ok e, w1)
       /\ (embedding_cache w !! other = None ->
           provider_calls (snd (get_embedding env other w1))
           = provider_calls w ++ [text; other]))
  /\ (embeddings_create env n text = None ->
      exists w1,
        get_embedding env text w = (Raise ProviderError, w1)
        /\ embedding_cache w1 = embedding_cache w
        /\ provider_calls w1 = provider_calls w ++ [text]
        /\ provider_calls (snd (get_embedding env text w1))
           = provider_calls w ++ [text; text]
        /\ fst (get_embedding env text w1)
           = match embeddings_create env (S n) text with
             | Some e => Ok e
             | None => Raise ProviderError
             end).
Proof using client_ok.
  intros Hmiss Hne n. split.
  - intros e He Hnil. exists (after_miss w text e).
    assert (H1 : get_embedding env text w = (Ok e, after_miss w text e)).
    { rewrite get_embedding_miss by (left; exact Hmiss). fold n.
      rewrite He. reflexivity. }
    assert (Hother : embedding_cache (after_miss w text e) !! other
                     = embedding_cache w !! other).
    { simpl. apply lookup_insert_ne. congruence. }
    split; [exact H1 |]. split; [reflexivity |].
    split; [simpl; apply lookup_insert_eq |].
    split; [exact Hother |].
    split.
    + apply get_embedding_hit; [simpl; apply lookup_insert_eq | exact Hnil].
    + intros Ho.
      rewrite get_embedding_miss by (left; rewrite Hother; exact Ho).
      destruct (embeddings_create env _ other); simpl;
        rewrite <- app_assoc; reflexivity.
  - intros He.
    set (w1 := with_provider_calls (provider_calls w ++ [text]) w).
    exists w1.
    assert (H1 : get_embedding env text w = (Raise ProviderError, w1)).
    { rewrite get_embedding_miss by (left; exact Hmiss). fold n.
      rewrite He. reflexivity. }
    assert (H2 := get_embedding_miss w1 text (or_introl Hmiss)).
    assert (Hlen : length (provider_calls w1) = S n).
    { simpl. rewrite length_app. simpl. unfold n. lia. }
    rewrite Hlen in H2.
    split; [exact H1 |]. split; [reflexivity |]. split; [reflexivity |].
    rewrite H2.
    destruct (embeddings_create env (S n) text); simpl;
      rewrite <- app_assoc; split; reflexivity.
Qed.

End Embeddings.

(** * Score boosting *)

Section Boosts.

Local Open Scope Q_scope.

Lemma Qltb_lt (a b : Q) : Qltb a b = true <-> a < b.
Proof.
  unfold Qltb. rewrite negb_true_iff. split.
  - intros H. apply Qnot_le_lt. intros Hle.
    apply Qle_bool_iff in Hle. congruence.
  - intros H. destruct (Qle_bool b a) eqn:E; [| reflexivity].
    apply Qle_bool_iff in E. exfalso. apply (Qlt_not_le _ _ H E).
Qed.

Lemma Qltb_ge (a b : Q) : Qltb a b = false <-> b <= a.
Proof.
  unfold Qltb. rewrite negb_false_iff. apply Qle_bool_iff.
Qed.

Lemma py_min_spec (a b : Q) : py_min a b == Qmin a b.
Proof.
  unfold py_min. destruct (Qltb b a) eqn:E.
  - apply Qltb_lt in E. symmetry. apply Q.min_r. lra.
  - apply Qltb_ge in E. symmetry. apply Q.min_l. exact E.
Qed.

Lemma py_min_le_r (a b : Q) : py_min a b <= b.
Proof. rewrite py_min_spec. apply Q.le_min_r. Qed.


Lemma calculate_match_score_eq (self : NLPProcessor) (text keyword : string)
    (base : Q) :
  let e := exact_match_holds text keyword in
  let l := lemma_match_holds self text keyword in
  let s := synonym_match_holds self text keyword in
  calculate_match_score self text keyword base
  = (py_min (let b := if e then base + 0.25 else base in
             let b := if l then b + 0.15 else b in
             if s then b + 0.10 else b) 1,
     boosts_of e l s).
Proof.
  intros e l s. unfold calculate_match_score.
  fold (text_lemmas self text).
  change (PyStr.contains _ _) with e.
  change (bool_decide (_ ∈ _)) with l.
  change (bool_decide (_ ≠ ∅)) with s.
  destruct e, l, s; reflexivity.
Qed.



End Boosts.

(** * Choosing the best category *)

Section BestCategory.

Local Open Scope Q_scope.

Variable env : Env.
Hypothesis client_ok : client env = true.
Hypothesis provider_stable :
  forall (n m : nat) (text : string),
    embeddings_create env n text = embeddings_create env m text.















End BestCategory.

(** * Statement polling *)

Section Polling.

Variable env : Env.
Variables account_id statement_id : string.

Let response_at := get_statement_response env account_id statement_id.
Let max_attempts := BANK_STATEMENT_MAX_ATTEMPTS (settings env).

Lemma with_requests_same (w : World) : with_requests (requests w) w = w.
Proof. destruct w; reflexivity. Qed.

Lemma with_requests_twice (l l' : list Request) (w : World) :
  with_requests l (with_requests l' w) = with_requests l w.
Proof. reflexivity. Qed.

Lemma eqb_neq_false (s t : string) : s <> t -> String.eqb s t = false.
Proof. intros H. apply String.eqb_neq. exact H. Qed.

(** One pass through the loop body on a response that is still pending. *)
Lemma get_statement_loop_step (remaining attempts : nat)
    (status : option string) (response : option Statement) (w : World) :
  is_Ready status = false ->
  still_pending (response_at attempts) ->
  exists status',
    is_Ready (Some status') = false
    /\ get_statement_loop env account_id statement_id (S remaining) attempts
         status response w
       = get_statement_loop env account_id statement_id remaining (S attempts)
           (Some status') (response_at attempts)
           (with_requests (requests w ++ polls account_id statement_id 1) w).
Proof.
  intros Hst (statement & s & Hr & Hs & Hready & Herror).
  exists s. split; [simpl; apply eqb_neq_false; exact Hready |].
  simpl. rewrite Hst.
  unfold bind, requests_get, try_except_lookup, try_except.
  fold response_at. rewrite Hr, Hs. simpl.
  rewrite (eqb_neq_false _ _ Herror). reflexivity.
Qed.

(** [k] passes on responses that are all still pending. *)
Lemma get_statement_loop_pending (k : nat) :
  forall (remaining attempts : nat) (status : option string)
         (response : option Statement) (w : World),
  is_Ready status = false ->
  (forall i, i < k -> still_pending (response_at (attempts + i))) ->
  exists status' response',
    is_Ready status' = false
    /\ get_statement_loop env account_id statement_id (k + remaining) attempts
         status response w
       = get_statement_loop env account_id statement_id remaining (attempts + k)
           status' response'
           (with_requests (requests w ++ polls account_id statement_id k) w).
Proof.
  induction k as [|k IH]; intros remaining attempts status response w Hst Hp.
  - exists status, response. split; [exact Hst |].
    simpl. rewrite app_nil_r, with_requests_same, Nat.add_0_r. reflexivity.
  - destruct (get_statement_loop_step (k + remaining) attempts status response w Hst)
      as (s1 & Hs1 & Hstep).
    { rewrite <- (Nat.add_0_r attempts). apply Hp. lia. }
    destruct (IH remaining (S attempts) (Some s1) (response_at attempts)
                 (with_requests (requests w ++ polls account_id statement_id 1) w)
                 Hs1)
      as (s' & r' & Hs' & Hrest).
    { intros i Hi. replace (S attempts + i) with (attempts + S i) by lia.
      apply Hp. lia. }
    exists s', r'. split; [exact Hs' |].
    change (S k + remaining) with (S (k + remaining)).
    rewrite Hstep, Hrest. rewrite with_requests_twice. simpl requests.
    rewrite <- app_assoc. replace (S attempts + k) with (attempts + S k) by lia.
    reflexivity.
Qed.

(** Without a ['Ready'] response the loop ends in an exception or with a
    status that is not ['Ready']. *)
Lemma get_statement_loop_not_ready (remaining : nat) :
  forall (attempts : nat) (status : option string)
         (response : option Statement) (w : World),
  is_Ready status = false ->
  (forall i statement, i < remaining ->
     response_at (attempts + i) = Some statement ->
     statement_status statement <> Some "Ready") ->
  match get_statement_loop env account_id statement_id remaining attempts
          status response w with
  | (Ok (status', _), _) => is_Ready status' = false
  | (Raise _, _) => True
  end.
Proof.
  induction remaining as [|remaining IH]; intros attempts status response w Hst Hno.
  - simpl. rewrite Hst. exact Hst.
  - simpl. rewrite Hst.
    unfold bind, requests_get, try_except_lookup, try_except.
    fold response_at.
    destruct (response_at attempts) as [statement|] eqn:Hr; [| exact I].
    destruct (statement_status statement) as [s|] eqn:Hs; [| exact I].
    simpl. destruct (String.eqb s "Error"); [exact I |].
    apply IH.
    + simpl. apply eqb_neq_false. intros ->.
      apply (Hno 0 statement); [lia | now rewrite Nat.add_0_r | exact Hs].
    + intros i st Hi Hst'. apply (Hno (S i) st); [lia |].
      now replace (attempts + S i) with (S attempts + i) by lia.
Qed.

(** C1: (a) when the first [k] status responses are pending and the next is
    ['Ready'], with [k + 1] within the attempt bound, [get_statement]
    returns that response after exactly [k + 1] polls; (b) when every
    response within the bound is pending, it raises the timeout after
    exactly [max_attempts] polls, and whenever no response within the bound
    is ['Ready'] it fails; (c) when the responses before the [j]-th are
    pending and the [j]-th, within the bound, is ['Error'], it raises the
    statement error at once, after [j + 1] polls, whatever the bound. *)
Theorem get_statement_polling (w : World) :
  (forall (k : nat) (statement : Statement),
     (Z.of_nat k + 1 <= max_attempts)%Z ->
     (forall i, i < k -> still_pending (response_at i)) ->
     response_at k = Some statement ->
     statement_status statement = Some "Ready" ->
     get_statement env account_id statement_id w
     = (Ok statement,
        with_requests (requests w ++ polls account_id statement_id (k + 1)) w))
  /\ ((forall i, (Z.of_nat i < max_attempts)%Z -> still_pending (response_at i)) ->
      get_statement env account_id statement_id w
      = (Raise StatementTimeout,
         with_requests
           (requests w ++ polls account_id statement_id (Z.to_nat max_attempts)) w))
  /\ ((forall i statement, (Z.of_nat i < max_attempts)%Z ->
         response_at i = Some statement ->
         statement_status statement <> Some "Ready") ->
      exists e w', get_statement env account_id statement_id w = (Raise e, w'))
  /\ (forall (j : nat) (statement : Statement),
        (Z.of_nat j < max_attempts)%Z ->
        (forall i, i < j -> still_pending (response_at i)) ->
        response_at j = Some statement ->
        statement_status statement = Some "Error" ->
        get_statement env account_id statement_id w
        = (Raise StatementError,
           with_requests (requests w ++ polls account_id statement_id (j + 1)) w)).
Proof.
  split; [| split; [| split]].
  - intros k statement Hk Hp Hr Hs.
    unfold get_statement, bind. fold max_attempts.
    replace (Z.to_nat max_attempts) with (k + S (Z.to_nat max_attempts - k - 1)) by lia.
    destruct (get_statement_loop_pending k (S (Z.to_nat max_attempts - k - 1)) 0
                None None w eq_refl Hp)
      as (s' & r' & Hs' & ->).
    simpl get_statement_loop. rewrite Hs'.
    unfold bind, requests_get, try_except_lookup, try_except.
    fold response_at. rewrite Hr, Hs. simpl.
    destruct (Z.to_nat max_attempts - k - 1); simpl;
      unfold polls; rewrite <- app_assoc, repeat_app; reflexivity.
  - intros Hp.
    unfold get_statement, bind. fold max_attempts.
    rewrite <- (Nat.add_0_r (Z.to_nat max_attempts)) at 1.
    destruct (get_statement_loop_pending (Z.to_nat max_attempts) 0 0 None None w
                eq_refl)
      as (s' & r' & Hs' & ->).
    { intros i Hi. apply Hp. lia. }
    simpl. rewrite Hs'. simpl. rewrite Hs'. reflexivity.
  - intros Hno.
    unfold get_statement, bind. fold max_attempts.
    pose proof (get_statement_loop_not_ready (Z.to_nat max_attempts) 0 None None w
                  eq_refl) as H.
    destruct (get_statement_loop env account_id statement_id
                (Z.to_nat max_attempts) 0 None None w) as [[[s r]|e] w'].
    + rewrite H; [simpl; eauto |].
      intros i st Hi. apply Hno. lia.
    + eauto.
  - intros j statement Hj Hp Hr Hs.
    unfold get_statement, bind. fold max_attempts.
    replace (Z.to_nat max_attempts) with (j + S (Z.to_nat max_attempts - j - 1)) by lia.
    destruct (get_statement_loop_pending j (S (Z.to_nat max_attempts - j - 1)) 0
                None None w eq_refl Hp)
      as (s' & r' & Hs' & ->).
    simpl get_statement_loop. rewrite Hs'.
    unfold bind, requests_get, try_except_lookup, try_except.
    fold response_at. rewrite Hr, Hs. simpl.
    unfold polls. rewrite <- app_assoc, repeat_app. reflexivity.
Qed.

End Polling.

(** * What the matcher leaves untouched *)

Section Frame.

Variable R : World -> World -> Prop.
Hypothesis R_refl : forall w, R w w.
Hypothesis R_trans : forall w1 w2 w3, R w1 w2 -> R w2 w3 -> R w1 w3.

Lemma preserves_ret {A} (a : A) : preserves R (ret a).
Proof using R_refl. intros w. apply R_refl. Qed.

Lemma preserves_raise {A} (e : exn) : preserves R (@raise A e).
Proof using R_refl. intros w. apply R_refl. Qed.

Lemma preserves_bind {A B} (m : M A) (k : A -> M B) :
  preserves R m -> (forall a, preserves R (k a)) -> preserves R (bind m k).
Proof using R_trans.
  intros Hm Hk w. unfold bind. specialize (Hm w).
  destruct (m w) as [[a|e] w1]; simpl in *; [| exact Hm].
  eapply R_trans; [exact Hm | apply Hk].
Qed.

Lemma preserves_try_except {A} (body : M A) (handler : exn -> M A) :
  preserves R body -> (forall e, preserves R (handler e)) ->
  preserves R (try_except body handler).
Proof using R_trans.
  intros Hm Hk w. unfold try_except. specialize (Hm w).
  destruct (body w) as [[a|e] w1]; simpl in *; [exact Hm |].
  eapply R_trans; [exact Hm | apply Hk].
Qed.

End Frame.

Section MatcherFrame.

Variable env : Env.

Lemma same_tables_refl (w : World) : same_tables w w.
Proof. repeat split. Qed.

Lemma same_tables_trans (w1 w2 w3 : World) :
  same_tables w1 w2 -> same_tables w2 w3 -> same_tables w1 w3.
Proof.
  intros (H1 & H2 & H3 & H4 & H5) (K1 & K2 & K3 & K4 & K5).
  repeat split; congruence.
Qed.

Ltac frame_bind :=
  apply (preserves_bind same_tables same_tables_trans).
Ltac frame_ret :=
  apply (preserves_ret same_tables same_tables_refl).
Ltac frame_raise :=
  apply (preserves_raise same_tables same_tables_refl).
Ltac frame_try :=
  apply (preserves_try_except same_tables same_tables_trans).

Lemma get_embedding_tables (text : string) :
  preserves same_tables (get_embedding env text).
Proof.
  unfold get_embedding.
  destruct (client env); simpl; [| frame_raise].
  assert (Hrequest :
            preserves same_tables
              (try_except
                 (embedding <- request_embedding env text ;;
                  save_embedding text embedding ;;;
                  ret embedding)
                 (fun e => raise e))).
  { frame_try.
    - frame_bind.
      + intros w. unfold request_embedding.
        destruct (embeddings_create env _ text); repeat split.
      + intros e. frame_bind; [intros w; repeat split |].
        intros _. frame_ret.
    - intros e. frame_raise. }
  frame_bind; [intros w; apply same_tables_refl |].
  intros [e|]; [| exact Hrequest].
  destruct (list_truthy e); [frame_ret | exact Hrequest].
Qed.

Lemma calculate_similarity_tables (text1 text2 : string) :
  preserves same_tables (calculate_similarity env text1 text2).
Proof.
  unfold calculate_similarity.
  frame_bind; [apply get_embedding_tables |]. intros emb1.
  frame_bind; [apply get_embedding_tables |]. intros emb2.
  frame_ret.
Qed.

Lemma max_sentence_similarity_tables (keyword : string)
    (sentences : list string) (acc : Q) :
  preserves same_tables (max_sentence_similarity env keyword sentences acc).
Proof.
  revert acc. induction sentences as [|s ss IH]; intros acc; simpl.
  - frame_ret.
  - frame_bind; [apply calculate_similarity_tables |].
    intros sim. apply IH.
Qed.

Lemma scan_keywords_tables (text : string) (sentences : list string)
    (category : string) (keywords : list string) (best : Best) :
  preserves same_tables (scan_keywords env text sentences category keywords best).
Proof.
  revert best. induction keywords as [|k ks IH]; intros best; simpl.
  - frame_ret.
  - frame_bind; [apply max_sentence_similarity_tables |].
    intros base.
    destruct (calculate_match_score (nlp env) text k base) as [score boosts].
    destruct best as [[bc bs] bb]. apply IH.
Qed.

Lemma scan_categories_tables (text : string) (sentences : list string)
    (items : list (string * list string)) (best : Best) :
  preserves same_tables (scan_categories env text sentences items best).
Proof.
  revert best. induction items as [|[category keywords] items IH];
    intros best; simpl.
  - frame_ret.
  - frame_bind; [apply scan_keywords_tables |].
    intros best'. apply IH.
Qed.

Lemma find_best_category_tables (text : string)
    (items : list (string * list string)) (threshold : Q) :
  preserves same_tables (find_best_category env text items threshold).
Proof.
  unfold find_best_category.
  frame_bind; [apply scan_categories_tables |].
  intros [[bc bs] bb].
  destruct (Qle_bool threshold bs); frame_ret.
Qed.

End MatcherFrame.

(** * Ingestion of one payload *)

Section Ingestion.

Variable env : Env.

Lemma same_key_spec (d : DateTime) (inn bic p : string) (t : Transaction) :
  same_key d inn bic p t = true <-> transaction_key t = (d, inn, bic, p).
Proof.
  unfold same_key, transaction_key.
  rewrite !andb_true_iff, bool_decide_eq_true, !String.eqb_eq.
  split; [intros [[[-> ->] ->] ->]; reflexivity | intros [= -> -> -> ->]; auto].
Qed.

Lemma existsb_same_key (d : DateTime) (inn bic p : string) (w : World) :
  existsb (same_key d inn bic p) (transactions w) = true
  <-> In (d, inn, bic, p) (keys w).
Proof.
  rewrite existsb_exists. unfold keys. rewrite in_map_iff.
  split; intros (t & H1 & H2).
  - exists t. split; [apply same_key_spec; exact H2 | exact H1].
  - exists t. split; [exact H2 | apply same_key_spec; exact H1].
Qed.

Lemma find_or_create_contractor_run (party : Party) (inn bic : string) (w : World) :
  exists contractor l,
    find_or_create_contractor party inn bic w
    = (Ok contractor, with_contractors l w).
Proof.
  unfold find_or_create_contractor, bind, contractor_first, contractor_create, ret.
  destruct (PyStr.truthy inn).
  - destruct (fold_left _ (contractors w) None) as [c|].
    + exists (Some c), (contractors w). destruct w; reflexivity.
    + eexists _, _. reflexivity.
  - exists None, (contractors w). destruct w; reflexivity.
Qed.

Lemma same_records_refl (w : World) : same_records w w.
Proof. split; reflexivity. Qed.

Lemma same_tables_records (w w' : World) : same_tables w w' -> same_records w w'.
Proof. intros (H1 & _ & _ & H4 & _). split; assumption. Qed.

Lemma expense_category_get_or_create_run (name : string) (w : World) :
  exists l,
    expense_category_get_or_create name w = (Ok name, with_expense_categories l w)
    /\ In name l.
Proof.
  unfold expense_category_get_or_create.
  destruct (existsb (String.eqb name) (expense_categories w)) eqn:E.
  - exists (expense_categories w). split; [destruct w; reflexivity |].
    apply existsb_exists in E as (x & Hx & Heq).
    apply String.eqb_eq in Heq. now subst x.
  - eexists. split; [reflexivity |]. apply in_or_app. right. now left.
Qed.

(** The category decision, case by case. *)
Lemma assign_category_run (direction : option string) (purpose inn : string)
    (w : World) :
  same_records w (snd (assign_category env direction purpose inn w))
  /\ (direction = Some "Credit" ->
      exists l,
        assign_category env direction purpose inn w
        = (Ok (Some REVENUE_CATEGORY, Some "default"), with_expense_categories l w)
        /\ In REVENUE_CATEGORY l)
  /\ (direction = Some "Debit" ->
      match find_best_category env purpose (CATEGORY_KEYWORDS env)
              (EMBEDDING_SIMILARITY_THRESHOLD (settings env)) w with
      | (Raise e, w1) => assign_category env direction purpose inn w = (Raise e, w1)
      | (Ok (name, _, _), w1) =>
          if opt_truthy name
          then exists l,
                 assign_category env direction purpose inn w
                 = (Ok (name, Some "nlp"), with_expense_categories l w1)
          else assign_category env direction purpose inn w
               = (Ok (match (if PyStr.truthy inn then expense_mappings w !! inn
                             else None) with
                      | Some c => (Some c, Some "map")
                      | None => (None, None)
                      end), w1)
      end)
  /\ (direction <> Some "Credit" -> direction <> Some "Debit" ->
      assign_category env direction purpose inn w = (Ok (None, None), w)).
Proof.
  assert (Hcredit : direction = Some "Credit" ->
            exists l,
              assign_category env direction purpose inn w
              = (Ok (Some REVENUE_CATEGORY, Some "default"),
                 with_expense_categories l w)
              /\ In REVENUE_CATEGORY l).
  { intros ->. unfold assign_category, bind. simpl.
    destruct (expense_category_get_or_create_run REVENUE_CATEGORY w)
      as (l & -> & Hl).
    exists l. split; [reflexivity | exact Hl]. }
  assert (Hdebit : direction = Some "Debit" ->
      match find_best_category env purpose (CATEGORY_KEYWORDS env)
              (EMBEDDING_SIMILARITY_THRESHOLD (settings env)) w with
      | (Raise e, w1) => assign_category env direction purpose inn w = (Raise e, w1)
      | (Ok (name, _, _), w1) =>
          if opt_truthy name
          then exists l,
                 assign_category env direction purpose inn w
                 = (Ok (name, Some "nlp"), with_expense_categories l w1)
          else assign_category env direction purpose inn w
               = (Ok (match (if PyStr.truthy inn then expense_mappings w !! inn
                             else None) with
                      | Some c => (Some c, Some "map")
                      | None => (None, None)
                      end), w1)
      end).
  { intros ->. unfold assign_category, bind. simpl.
    pose proof (find_best_category_tables env purpose (CATEGORY_KEYWORDS env)
                  (EMBEDDING_SIMILARITY_THRESHOLD (settings env)) w) as Hfr.
    destruct (find_best_category env purpose (CATEGORY_KEYWORDS env)
                (EMBEDDING_SIMILARITY_THRESHOLD (settings env)) w)
      as [[[[name score] boosts]|e] w1]; [| reflexivity].
    destruct Hfr as (_ & _ & _ & Hmap & _). simpl in Hmap.
    destruct name as [name|]; simpl.
    - destruct (PyStr.truthy name) eqn:Hname.
      + destruct (expense_category_get_or_create_run name w1) as (l & -> & _).
        exists l. reflexivity.
      + destruct (PyStr.truthy inn); [| reflexivity].
        unfold expense_mapping_first. cbv beta. rewrite Hmap.
        destruct (expense_mappings w !! inn); reflexivity.
    - destruct (PyStr.truthy inn); [| reflexivity].
      unfold expense_mapping_first. cbv beta. rewrite Hmap.
      destruct (expense_mappings w !! inn); reflexivity. }
  assert (Hother : direction <> Some "Credit" -> direction <> Some "Debit" ->
            assign_category env direction purpose inn w = (Ok (None, None), w)).
  { intros H1 H2. unfold assign_category, is_direction.
    destruct direction as [s|]; [| reflexivity].
    destruct (String.eqb_spec s "Credit") as [-> | _]; [congruence |].
    destruct (String.eqb_spec s "Debit") as [-> | _]; [congruence |].
    reflexivity. }
  split; [| auto].
  destruct (decide (direction = Some "Credit")) as [Hc | Hc].
  { destruct (Hcredit Hc) as (l & -> & _). split; reflexivity. }
  destruct (decide (direction = Some "Debit")) as [Hd | Hd].
  - specialize (Hdebit Hd).
    pose proof (find_best_category_tables env purpose (CATEGORY_KEYWORDS env)
                  (EMBEDDING_SIMILARITY_THRESHOLD (settings env)) w) as Hfr.
    apply same_tables_records in Hfr.
    destruct (find_best_category env purpose (CATEGORY_KEYWORDS env)
                (EMBEDDING_SIMILARITY_THRESHOLD (settings env)) w)
      as [[[[name score] boosts]|e] w1]; simpl in Hfr.
    + destruct (opt_truthy name).
      * destruct Hdebit as (l & ->). destruct Hfr. split; assumption.
      * rewrite Hdebit. exact Hfr.
    + rewrite Hdebit. exact Hfr.
  - rewrite (Hother Hc Hd). apply same_records_refl.
Qed.

(** The outcome of [_save_transaction], case by case: nothing happens on a
    malformed date or on a duplicate; otherwise the contractor is found or
    created, the category decided, and the record appended, unless the
    category decision raises. *)
Lemma _save_transaction_run (td : TransactionData) (account batch_id : string)
    (w : World) :
  match payload_date env td with
  | None => _save_transaction env td account batch_id w = (Ok tt, w)
  | Some d =>
      if existsb (same_key d (payload_inn td) (payload_bic td) (payload_purpose td))
                 (transactions w)
      then _save_transaction env td account batch_id w = (Ok tt, w)
      else
        exists contractor l,
          _save_transaction env td account batch_id w
          = (Ok tt,
             match assign_category env (creditDebitIndicator td)
                     (payload_purpose td) (payload_inn td)
                     (with_contractors l w) with
             | (Ok (cat, src), w2) =>
                 with_transactions
                   (transactions w2
                    ++ [ingested_record td account batch_id d contractor cat src])
                   w2
             | (Raise _, w2) => w2
             end)
  end.
Proof.
  unfold payload_date, _save_transaction, try_except, bind, ret, raise.
  destruct (strptime env _) as [d|]; [| reflexivity].
  unfold ingested_record, payload_inn, payload_bic, payload_purpose,
    payload_party, payload_agent, payload_account_data, payload_amount, outgoing.
  destruct (is_direction (creditDebitIndicator td) "Debit");
    cbv beta iota zeta; unfold transaction_exists; cbv beta iota zeta;
    (destruct (existsb _ (transactions w)); [reflexivity |]);
    match goal with
    | |- context [find_or_create_contractor ?p ?i ?b w] =>
        destruct (find_or_create_contractor_run p i b w) as (c & l & ->)
    end;
    exists c, l;
    match goal with
    | |- context [assign_category ?e ?d ?p ?i ?w1] =>
        destruct (assign_category e d p i w1) as [[[cat src]|ex] w2]
    end; reflexivity.
Qed.

(** The world after [_save_transaction] either has the same transactions or
    one more, the record of the payload, whose key was not there before. *)
Lemma _save_transaction_transactions (td : TransactionData)
    (account batch_id : string) (w : World) :
  fst (_save_transaction env td account batch_id w) = Ok tt
  /\ (transactions (snd (_save_transaction env td account batch_id w))
      = transactions w
      \/ exists d contractor cat src,
           payload_date env td = Some d
           /\ ~ In (d, payload_inn td, payload_bic td, payload_purpose td) (keys w)
           /\ transactions (snd (_save_transaction env td account batch_id w))
              = transactions w
                ++ [ingested_record td account batch_id d contractor cat src]
           /\ (creditDebitIndicator td = Some "Credit" ->
               cat = Some REVENUE_CATEGORY /\ src = Some "default")
           /\ (creditDebitIndicator td = Some "Debit" ->
               src = Some "nlp" \/ src = Some "map" \/ src = None)
           /\ (creditDebitIndicator td <> Some "Credit" ->
               creditDebitIndicator td <> Some "Debit" ->
               cat = None /\ src = None)).
Proof.
  pose proof (_save_transaction_run td account batch_id w) as Hrun.
  destruct (payload_date env td) as [d|] eqn:Hd; [| rewrite Hrun; auto].
  destruct (existsb _ (transactions w)) eqn:Hdup; [rewrite Hrun; auto |].
  destruct Hrun as (contractor & l & ->). split; [reflexivity |]. cbn [snd].
  destruct (assign_category_run (creditDebitIndicator td) (payload_purpose td)
              (payload_inn td) (with_contractors l w))
    as ([Htr _] & Hcredit & Hdebit & Hother).
  destruct (assign_category env (creditDebitIndicator td) (payload_purpose td)
              (payload_inn td) (with_contractors l w))
    as [[[cat src]|ex] w2] eqn:Hassign; cbn [snd] in Htr; [| left; exact Htr].
  right. exists d, contractor, cat, src.
  split; [reflexivity |]. split.
  { intros Hin. apply existsb_same_key in Hin. congruence. }
  split; [simpl; rewrite Htr; reflexivity |].
  split; [| split].
  - intros Hc. destruct (Hcredit Hc) as (l' & [= <- <- _] & _). auto.
  - intros Hdeb. specialize (Hdebit Hdeb).
    destruct (find_best_category env _ _ _ _) as [[[[name score] boosts]|e] w1];
      [| discriminate].
    destruct (opt_truthy name).
    + destruct Hdebit as (l' & [= <- <- _]). auto.
    + injection Hdebit as Heq _.
      destruct (PyStr.truthy (payload_inn td));
        [destruct (expense_mappings _ !! _) |];
        injection Heq as -> ->; auto.
  - intros H1 H2. specialize (Hother H1 H2).
    injection Hother as -> -> _. auto.
Qed.

Lemma payload_key_date (td : TransactionData) (k : Key) :
  payload_key env td = Some k ->
  exists d,
    payload_date env td = Some d
    /\ k = (d, payload_inn td, payload_bic td, payload_purpose td).
Proof.
  unfold payload_key. destruct (payload_date env td) as [d|]; [| discriminate].
  intros [= <-]. eauto.
Qed.


Lemma transactions_not_longer (l : list Transaction) (t : Transaction) :
  l <> l ++ [t].
Proof.
  intros H. apply (f_equal (@length _)) in H. rewrite length_app in H.
  simpl in H. lia.
Qed.


(** A payload with a well-formed date that is not outgoing is stored,
    unless its key is there already. *)
Lemma _save_transaction_stores (td : TransactionData)
    (account batch_id : string) (w : World) (k : Key) :
  payload_key env td = Some k -> outgoing td = false ->
  (In k (keys w)
   /\ snd (_save_transaction env td account batch_id w) = w)
  \/ (~ In k (keys w)
      /\ exists t,
           transactions (snd (_save_transaction env td account batch_id w))
           = transactions w ++ [t]
           /\ transaction_key t = k).
Proof.
  intros Hk Hout. apply payload_key_date in Hk as (d & Hd & ->).
  pose proof (_save_transaction_run td account batch_id w) as Hrun.
  rewrite Hd in Hrun.
  destruct (existsb _ (transactions w)) eqn:Hdup.
  - left. rewrite Hrun. split; [apply existsb_same_key; exact Hdup | reflexivity].
  - right. split.
    { intros Hin. apply existsb_same_key in Hin. congruence. }
    destruct Hrun as (contractor & l & ->). cbn [snd].
    destruct (assign_category_run (creditDebitIndicator td) (payload_purpose td)
                (payload_inn td) (with_contractors l w))
      as (_ & Hcredit & _ & Hother).
    assert (Hnd : creditDebitIndicator td <> Some "Debit").
    { intros Heq. unfold outgoing in Hout. rewrite Heq in Hout. discriminate. }
    destruct (decide (creditDebitIndicator td = Some "Credit")) as [Hc | Hc].
    + destruct (Hcredit Hc) as (l' & -> & _). eexists. split; reflexivity.
    + rewrite (Hother Hc Hnd). eexists. split; reflexivity.
Qed.


(** C4: a record stored for a payload whose direction is ['Credit'] has the
    revenue category with source ['default'], and such a payload, when its
    date is well formed and its key is new, is stored; a record stored for a
    payload whose direction is ['Debit'] never has source ['default']. *)
Theorem direction_routing (td : TransactionData) (account batch_id : string)
    (w : World) :
  let w' := snd (_save_transaction env td account batch_id w) in
  (creditDebitIndicator td = Some "Credit" ->
     (forall t, transactions w' = transactions w ++ [t] ->
        expense_category t = Some REVENUE_CATEGORY
        /\ category_source t = Some "default")
     /\ (forall k, payload_key env td = Some k -> ~ In k (keys w) ->
           exists t, transactions w' = transactions w ++ [t]))
  /\ (creditDebitIndicator td = Some "Debit" ->
      forall t, transactions w' = transactions w ++ [t] ->
        category_source t <> Some "default").
Proof.
  intros w'. unfold w'.
  destruct (_save_transaction_transactions td account batch_id w)
    as (_ & Hcases).
  split.
  - intros Hc. split.
    + intros t Ht.
      destruct Hcases as [Hsame | (d & c & cat & src & _ & _ & Happ & Hcr & _)].
      * rewrite Hsame in Ht. destruct (transactions_not_longer _ _ Ht).
      * rewrite Happ in Ht. apply app_inj_tail in Ht as [_ <-].
        destruct (Hcr Hc) as [-> ->]. split; reflexivity.
    + intros k Hk Hnew.
      destruct (_save_transaction_stores td account batch_id w k Hk)
        as [[Hin _] | (_ & t & Ht & _)]; [| contradiction | eauto].
      unfold outgoing. rewrite Hc. reflexivity.
  - intros Hd t Ht.
    destruct Hcases as [Hsame | (d & c & cat & src & _ & _ & Happ & _ & Hdeb & _)].
    + rewrite Hsame in Ht. destruct (transactions_not_longer _ _ Ht).
    + rewrite Happ in Ht. apply app_inj_tail in Ht as [_ <-]. simpl.
      destruct (Hdeb Hd) as [-> | [-> | ->]]; discriminate.
Qed.

(** C10: a payload whose direction is neither ['Credit'] nor ['Debit']
    (or is missing), with a well-formed date and a new key, is stored as an
    incoming one: the credit amount is set, the debit amount is null, the
    counterparty fields are those of the debtor side; and it gets neither
    the revenue category nor any other: no category and a null source. *)
Theorem undirected_payload_uncategorized (td : TransactionData)
    (account batch_id : string) (w : World) (d : DateTime) :
  creditDebitIndicator td <> Some "Credit" ->
  creditDebitIndicator td <> Some "Debit" ->
  payload_date env td = Some d ->
  let party := default empty_party (DebtorParty td) in
  let agent := default empty_agent (DebtorAgent td) in
  let account_data := default empty_account (DebtorAccount td) in
  ~ In (d, get_strip (party_inn party), get_strip (agent_identification agent),
        payload_purpose td) (keys w) ->
  exists t w',
    _save_transaction env td account batch_id w = (Ok tt, w')
    /\ transactions w' = transactions w ++ [t]
    /\ credit t = Some (payload_amount td) /\ debit t = None
    /\ contractor_inn t = get_strip (party_inn party)
    /\ contractor_bic t = get_strip (agent_identification agent)
    /\ contractor_corr_account t = get_strip (agent_accountIdentification agent)
    /\ contractor_bank_name t = get_strip (agent_name agent)
    /\ contractor_account t = get_strip (account_identification account_data)
    /\ expense_category t = None /\ category_source t = None.
Proof.
  intros Hc Hd Hdate party agent account_data Hnew.
  assert (Hout : outgoing td = false).
  { unfold outgoing, is_direction.
    destruct (creditDebitIndicator td) as [s|]; [| reflexivity].
    apply eqb_neq_false. congruence. }
  pose proof (_save_transaction_run td account batch_id w) as Hrun.
  rewrite Hdate in Hrun.
  assert (Hinn : payload_inn td = get_strip (party_inn party))
    by (unfold payload_inn, payload_party; now rewrite Hout).
  assert (Hbic : payload_bic td = get_strip (agent_identification agent))
    by (unfold payload_bic, payload_agent; now rewrite Hout).
  destruct (existsb _ (transactions w)) eqn:Hdup.
  { apply existsb_same_key in Hdup. rewrite Hinn, Hbic in Hdup. contradiction. }
  destruct Hrun as (contractor & l & ->).
  destruct (assign_category_run (creditDebitIndicator td) (payload_purpose td)
              (payload_inn td) (with_contractors l w))
    as (_ & _ & _ & Hother).
  rewrite (Hother Hc Hd).
  eexists _, _. split; [reflexivity |]. split; [reflexivity |].
  unfold ingested_record. cbn [credit debit contractor_inn contractor_bic
    contractor_corr_account contractor_bank_name contractor_account
    expense_category category_source].
  unfold payload_agent, payload_account_data. rewrite Hout, Hinn, Hbic.
  repeat split.
Qed.


End Ingestion.

(** * The run over the accounts *)

Section Run.

Variable env : Env.
Variables start_date end_date batch_id : string.

Lemma only_requests_refl (account_id : string) (w : World) :
  only_requests account_id w w.
Proof.
  exists []. split; [| constructor].
  rewrite app_nil_r. destruct w; reflexivity.
Qed.

Lemma only_requests_trans (account_id : string) (w1 w2 w3 : World) :
  only_requests account_id w1 w2 -> only_requests account_id w2 w3 ->
  only_requests account_id w1 w3.
Proof.
  intros (rs & -> & H1) (rs' & -> & H2). exists (rs ++ rs'). split.
  - simpl. now rewrite app_assoc.
  - apply Forall_app. split; assumption.
Qed.

Lemma only_requests_one (account_id : string) (r : Request) (w : World) :
  request_for account_id r ->
  only_requests account_id w (with_requests (requests w ++ [r]) w).
Proof. intros H. exists [r]. split; [reflexivity | repeat constructor; exact H]. Qed.

Ltac req_bind := apply (preserves_bind _ (only_requests_trans _)).
Ltac req_ret := apply (preserves_ret _ (only_requests_refl _)).
Ltac req_raise := apply (preserves_raise _ (only_requests_refl _)).
Ltac req_try := apply (preserves_try_except _ (only_requests_trans _)).

Lemma create_statement_requests (account_id : string) :
  preserves (only_requests account_id)
            (create_statement env account_id start_date end_date).
Proof.
  unfold create_statement. req_bind.
  - intros w. apply only_requests_one. reflexivity.
  - intros [status_code response].
    destruct (negb (status_code =? 200)%Z); [req_raise | req_ret].
Qed.

Lemma get_statement_loop_requests (account_id statement_id : string)
    (remaining : nat) :
  forall attempts status response,
    preserves (only_requests account_id)
              (get_statement_loop env account_id statement_id remaining attempts
                                  status response).
Proof.
  induction remaining as [|remaining IH]; intros attempts status response; simpl.
  - destruct (is_Ready status); req_ret.
  - destruct (is_Ready status); [req_ret |].
    req_bind; [intros w; apply only_requests_one; reflexivity |].
    intros r. req_bind.
    + unfold try_except_lookup. req_try.
      * destruct r as [statement|]; [| req_raise].
        destruct (statement_status statement); [req_ret | req_raise].
      * intros e. destruct e; req_raise.
    + intros s. destruct (String.eqb s "Error"); [req_raise | apply IH].
Qed.

Lemma get_statement_requests (account_id statement_id : string) :
  preserves (only_requests account_id) (get_statement env account_id statement_id).
Proof.
  unfold get_statement. req_bind; [apply get_statement_loop_requests |].
  intros [status response].
  destruct (negb (is_Ready status)); [req_raise |].
  destruct response; [req_ret | req_raise].
Qed.

Lemma save_entries_returns (entries : list TransactionData) (account : string) :
  forall w, fst (save_entries env entries account batch_id w) = Ok tt.
Proof.
  induction entries as [|td entries IH]; intros w; simpl; [reflexivity |].
  unfold bind.
  destruct (_save_transaction_transactions env td account batch_id w) as (H & _).
  destruct (_save_transaction env td account batch_id w) as [[[]|e] w1];
    simpl in H; [apply IH | discriminate].
Qed.

(** An account whose processing raises has sent requests and done nothing
    else: the exception comes from the acquisition, never from a save. *)
Lemma fetch_account_raises (account : string) (w w' : World) (e : exn) :
  fetch_account env start_date end_date batch_id account w = (Raise e, w') ->
  only_requests (account ++ "/" ++ BANK_BIC (settings env))%string w w'.
Proof.
  unfold fetch_account, bind, try_except_lookup, try_except.
  set (account_id := (account ++ "/" ++ BANK_BIC (settings env))%string).
  pose proof (create_statement_requests account_id w) as H1.
  destruct (create_statement env account_id start_date end_date w)
    as [[response|e1] w1]; simpl in H1.
  2:{ intros [= _ <-]. exact H1. }
  destruct response as [statement_id|].
  2:{ unfold raise. simpl. intros [= _ <-]. exact H1. }
  unfold ret at 1. cbv beta iota.
  pose proof (get_statement_requests account_id statement_id w1) as H2.
  destruct (get_statement env account_id statement_id w1)
    as [[statement|e2] w2]; simpl in H2.
  - pose proof (save_entries_returns
                  (default [] (statement_Transaction statement)) account w2) as H3.
    destruct (save_entries env _ account batch_id w2) as [[[]|e3] w3];
      simpl in H3; [discriminate | discriminate].
  - intros Heq.
    assert (w' = w2) as ->.
    { destruct e2; unfold raise in Heq; simpl in Heq; congruence. }
    eapply only_requests_trans; eassumption.
Qed.

Lemma fetch_accounts_app (pre post : list string) (w : World) :
  fetch_accounts env start_date end_date batch_id (pre ++ post) w
  = match fetch_accounts env start_date end_date batch_id pre w with
    | (Ok _, w1) => fetch_accounts env start_date end_date batch_id post w1
    | (Raise e, w1) => (Raise e, w1)
    end.
Proof.
  revert w. induction pre as [|a pre IH]; intros w; simpl; [reflexivity |].
  unfold bind.
  destruct (fetch_account env start_date end_date batch_id a w) as [[[]|e] w1];
    [apply IH | reflexivity].
Qed.

(** C2 (as amended): when the accounts before [account] are processed
    without exception and the processing of [account] raises (an acquisition
    failure: nothing else raises), the run stops there: the exception
    reaches the caller, the failing account has sent requests for its own
    statement and stored nothing, what the earlier accounts stored is kept,
    and the world is the one the failing account left, so that nothing is
    requested or stored for the accounts after it. *)
Theorem fetch_and_save_statements_stops (w w1 w2 : World)
    (pre post : list string) (account : string) (e : exn) :
  BANK_ACCOUNTS (settings env) = pre ++ account :: post ->
  fetch_accounts env start_date end_date batch_id pre w = (Ok tt, w1) ->
  fetch_account env start_date end_date batch_id account w1 = (Raise e, w2) ->
  fetch_and_save_statements env start_date end_date batch_id w = (Raise e, w2)
  /\ transactions w2 = transactions w1
  /\ exists rs,
       requests w2 = requests w1 ++ rs
       /\ Forall (request_for (account ++ "/" ++ BANK_BIC (settings env))%string) rs.
Proof.
  intros Haccounts Hpre Hfail.
  split; [| split].
  - unfold fetch_and_save_statements. rewrite Haccounts, fetch_accounts_app, Hpre.
    simpl. unfold bind. rewrite Hfail. reflexivity.
  - apply fetch_account_raises in Hfail as (rs & -> & _). reflexivity.
  - apply fetch_account_raises in Hfail as (rs & -> & Hrs). exists rs.
    split; [reflexivity | exact Hrs].
Qed.

End Run.

(** * The theorems on the example environment *)

Section Examples.

Lemma demo_world_miss (text : string) : embedding_cache demo_world !! text = None.
Proof. reflexivity. Qed.

(** C1 on the example bank: account [B] is ready at the second poll,
    account [T] never is, account [E] reports an error at once. *)
Lemma get_statement_polling_witness :
  get_statement demo_env "B/044525104" "s1" demo_world
  = (Ok (mkStatement (Some "Ready") (Some [demo_credit; demo_debit])),
     with_requests (requests demo_world ++ polls "B/044525104" "s1" (1 + 1))
                   demo_world)
  /\ get_statement demo_env "T/044525104" "s1" demo_world
     = (Raise StatementTimeout,
        with_requests (requests demo_world ++ polls "T/044525104" "s1" 3)
                      demo_world)
  /\ get_statement demo_env "E/044525104" "s1" demo_world
     = (Raise StatementError,
        with_requests (requests demo_world ++ polls "E/044525104" "s1" (0 + 1))
                      demo_world).
Proof.
  split; [| split].
  - apply (proj1 (get_statement_polling demo_env "B/044525104" "s1" demo_world) 1
             (mkStatement (Some "Ready") (Some [demo_credit; demo_debit]))).
    + simpl. lia.
    + intros i Hi. assert (i = 0) as -> by lia.
      exists (mkStatement (Some "Pending") None), "Pending".
      repeat split; discriminate.
    + reflexivity.
    + reflexivity.
  - apply (proj1 (proj2 (get_statement_polling demo_env "T/044525104" "s1"
                           demo_world))).
    intros i _. exists (mkStatement (Some "Pending") None), "Pending".
    repeat split; discriminate.
  - apply (proj2 (proj2 (proj2 (get_statement_polling demo_env "E/044525104" "s1"
                                  demo_world))) 0
             (mkStatement (Some "Error") None)).
    + simpl. lia.
    + intros i Hi. lia.
    + reflexivity.
    + reflexivity.
Defined.

(** C2, counterexample: the statement of account [A] cannot be created; the
    run raises, and account [B], whose two transactions a run without [A]
    stores, is neither requested nor stored. *)
Lemma fetch_and_save_statements_skips_later_accounts :
  let run :=
    fetch_and_save_statements demo_env "2025-06-11" "2025-06-12" "b1" demo_world in
  BANK_ACCOUNTS (settings demo_env) = ["A"; "B"]
  /\ fst run = Raise CreateStatementFailed
  /\ transactions (snd run) = []
  /\ requests (snd run) = [PostStatement "A/044525104" "2025-06-11" "2025-06-12"]
  /\ length (transactions
               (snd (fetch_account demo_env "2025-06-11" "2025-06-12" "b1" "B"
                                   demo_world))) = 2.
Proof. vm_compute. repeat split. Qed.

(** C2 (as amended) on the example bank: the run stops at account [A]. *)
Lemma fetch_and_save_statements_stops_witness :
  BANK_ACCOUNTS (settings demo_env) = [] ++ "A" :: ["B"]
  /\ fetch_and_save_statements demo_env "2025-06-11" "2025-06-12" "b1" demo_world
     = (Raise CreateStatementFailed,
        with_requests [PostStatement "A/044525104" "2025-06-11" "2025-06-12"]
                      demo_world).
Proof.
  split; [reflexivity |].
  apply (fetch_and_save_statements_stops demo_env "2025-06-11" "2025-06-12" "b1"
           demo_world demo_world
           (with_requests [PostStatement "A/044525104" "2025-06-11" "2025-06-12"]
                          demo_world)
           [] ["B"] "A" CreateStatementFailed); reflexivity.
Defined.


(** C4 on the incoming example payload. *)
Lemma direction_routing_witness :
  exists t,
    transactions (snd (_save_transaction demo_env demo_credit "B" "b1" demo_world))
    = transactions demo_world ++ [t]
    /\ expense_category t = Some REVENUE_CATEGORY
    /\ category_source t = Some "default".
Proof.
  destruct (direction_routing demo_env demo_credit "B" "b1" demo_world) as [Hc _].
  destruct (Hc eq_refl) as [Hcat Hstored].
  destruct (Hstored _ eq_refl) as [t Ht]; [simpl; tauto |].
  exists t. split; [exact Ht | apply Hcat, Ht].
Defined.








(** C9 on the example provider: ["rent"] is answered and then served from
    the cache; the first request for ["down"] fails, is not cached, and the
    next lookup asks the provider again. *)
Lemma get_embedding_cache_first_witness :
  (exists w1,
     get_embedding demo_env "rent" demo_world = (Ok [1%Q], w1)
     /\ provider_calls w1 = ["rent"]
     /\ get_embedding demo_env "rent" w1 = (Ok [1%Q], w1))
  /\ (exists w1,
        get_embedding demo_env "down" demo_world = (Raise ProviderError, w1)
        /\ embedding_cache w1 = embedding_cache demo_world
        /\ provider_calls (snd (get_embedding demo_env "down" w1)) = ["down"; "down"]
        /\ fst (get_embedding demo_env "down" w1) = Ok [1%Q]).
Proof.
  split.
  - destruct (get_embedding_cache_first demo_env eq_refl demo_world "rent" "office"
                (demo_world_miss "rent")) as [Hok _]; [discriminate |].
    destruct (Hok [1%Q] eq_refl) as (w1 & H1 & Hcalls & _ & _ & H2 & _);
      [discriminate |].
    exists w1. auto.
  - destruct (get_embedding_cache_first demo_env eq_refl demo_world "down" "office"
                (demo_world_miss "down")) as [_ Hfail]; [discriminate |].
    destruct (Hfail eq_refl) as (w1 & H1 & Hcache & _ & Hcalls & Hnext).
    exists w1. auto.
Defined.

(** C10 on the example payload without direction. *)
Lemma undirected_payload_uncategorized_witness :
  exists t w',
    _save_transaction demo_env demo_undirected "B" "b1" demo_world = (Ok tt, w')
    /\ transactions w' = [t]
    /\ credit t = Some 5%Q /\ debit t = None
    /\ contractor_inn t = "7703" /\ contractor_bic t = "044525333"
    /\ expense_category t = None /\ category_source t = None.
Proof.
  destruct (undirected_payload_uncategorized demo_env demo_undirected "B" "b1"
              demo_world (mkDateTime 2025 6 11))
    as (t & w' & Hrun & Ht & Hcr & Hdb & Hinn & Hbic & _ & _ & _ & Hcat & Hsrc);
    try discriminate; try reflexivity.
  { simpl. tauto. }
  exists t, w'. repeat split; assumption.
Defined.

End Examples.

(** * Further properties of the polling loop *)

Section PollingBounds.

Variable env : Env.
Variables account_id statement_id : string.

Let response_at := get_statement_response env account_id statement_id.
Let max_attempts := BANK_STATEMENT_MAX_ATTEMPTS (settings env).

(** Whatever the bank answers, the loop sends at most [remaining] polls
    and changes nothing but the request log. *)
Lemma get_statement_loop_polls (remaining : nat) :
  forall (attempts : nat) (status : option string)
         (response : option Statement) (w : World),
  exists n,
    n <= remaining
    /\ snd (get_statement_loop env account_id statement_id remaining attempts
              status response w)
       = with_requests (requests w ++ polls account_id statement_id n) w.
Proof.
  induction remaining as [|remaining IH]; intros attempts status response w.
  - exists 0. split; [lia |]. simpl.
    rewrite app_nil_r, with_requests_same. destruct (is_Ready status); reflexivity.
  - simpl. destruct (is_Ready status).
    { exists 0. split; [lia |]. simpl.
      now rewrite app_nil_r, with_requests_same. }
    unfold bind, requests_get, try_except_lookup, try_except.
    fold response_at.
    set (w1 := with_requests (requests w ++ [GetStatement account_id statement_id]) w).
    assert (Hone : w1 = with_requests (requests w ++ polls account_id statement_id 1) w)
      by reflexivity.
    destruct (response_at attempts) as [statement|];
      [| exists 1; split; [lia | exact Hone]].
    destruct (statement_status statement) as [s|];
      [| exists 1; split; [lia | exact Hone]].
    simpl. destruct (String.eqb s "Error");
      [exists 1; split; [lia | exact Hone] |].
    destruct (IH (S attempts) (Some s) (Some statement) w1) as (n & Hn & ->).
    exists (S n). split; [lia |].
    unfold w1. rewrite with_requests_twice. simpl requests.
    now rewrite <- app_assoc.
Qed.

(** X1: whatever the bank answers, [get_statement] sends at most
    [max_attempts] status polls, all for the statement asked for, and
    changes nothing else in the world; when [max_attempts] is at most 0 it
    sends none and raises the timeout. *)
Theorem get_statement_poll_bound (w : World) :
  (exists n,
     (Z.of_nat n <= Z.max 0 max_attempts)%Z
     /\ snd (get_statement env account_id statement_id w)
        = with_requests (requests w ++ polls account_id statement_id n) w)
  /\ ((max_attempts <= 0)%Z ->
      get_statement env account_id statement_id w = (Raise StatementTimeout, w)).
Proof.
  split.
  - destruct (get_statement_loop_polls (Z.to_nat max_attempts) 0 None None w)
      as (n & Hn & Hw).
    exists n. split; [lia |].
    unfold get_statement, bind. fold max_attempts.
    destruct (get_statement_loop env account_id statement_id
                (Z.to_nat max_attempts) 0 None None w) as [[[s r]|e] w'];
      simpl in Hw; subst w'; [| reflexivity].
    destruct (negb (is_Ready s)); [reflexivity |]. destruct r; reflexivity.
  - intros Hmax. unfold get_statement, bind. fold max_attempts.
    replace (Z.to_nat max_attempts) with 0 by lia. reflexivity.
Qed.

(** A loop that returns a ['Ready'] status has seen pending responses and
    then a ['Ready'] one, which is the response it returns. *)
Lemma get_statement_loop_ready (remaining : nat) :
  forall (attempts : nat) (status : option string)
         (response : option Statement) (w : World)
         (status' : option string) (response' : option Statement) (w' : World),
  is_Ready status = false ->
  get_statement_loop env account_id statement_id remaining attempts status
                     response w = (Ok (status', response'), w') ->
  is_Ready status' = true ->
  exists (k : nat) (statement : Statement),
    k < remaining
    /\ (forall i, i < k -> still_pending (response_at (attempts + i)))
    /\ response_at (attempts + k) = Some statement
    /\ statement_status statement = Some "Ready"
    /\ response' = Some statement
    /\ w' = with_requests (requests w ++ polls account_id statement_id (S k)) w.
Proof.
  induction remaining as [|remaining IH];
    intros attempts status response w status' response' w' Hst Hrun Hready.
  - simpl in Hrun. rewrite Hst in Hrun. injection Hrun as <- <- <-. congruence.
  - simpl in Hrun. rewrite Hst in Hrun.
    unfold bind, requests_get, try_except_lookup, try_except in Hrun.
    fold response_at in Hrun.
    destruct (response_at attempts) as [statement|] eqn:Hr; [| discriminate].
    destruct (statement_status statement) as [s|] eqn:Hs; [| discriminate].
    simpl in Hrun.
    destruct (String.eqb s "Error") eqn:Herr; [discriminate |].
    destruct (String.eqb s "Ready") eqn:Hrdy.
    + apply String.eqb_eq in Hrdy. subst s.
      destruct remaining; simpl in Hrun; injection Hrun as <- <- <-;
        exists 0, statement; rewrite Nat.add_0_r;
        (split; [lia |]); (split; [intros i Hi; lia |]); auto.
    + destruct (IH (S attempts) (Some s) (Some statement) _ status' response' w'
                   Hrdy Hrun Hready)
        as (k & st & Hk & Hp & Hrk & Hsk & Hresp & ->).
      exists (S k), st. split; [lia |]. split.
      { intros i Hi. destruct i as [|i].
        - rewrite Nat.add_0_r. exists statement, s.
          repeat split; try assumption; apply String.eqb_neq; assumption.
        - replace (attempts + S i) with (S attempts + i) by lia. apply Hp. lia. }
      replace (attempts + S k) with (S attempts + k) by lia.
      repeat split; try assumption.
      rewrite with_requests_twice. simpl requests. now rewrite <- app_assoc.
Qed.

(** X2: [get_statement] returns only in the situation of claim C1: the
    statement it returns has status ['Ready'], it is the response to the
    last poll, that poll is within the attempt bound, and every response
    before it was pending. *)
Theorem get_statement_returns_ready (w w' : World) (statement : Statement) :
  get_statement env account_id statement_id w = (Ok statement, w') ->
  statement_status statement = Some "Ready"
  /\ exists k : nat,
       (Z.of_nat k < max_attempts)%Z
       /\ (forall i, i < k -> still_pending (response_at i))
       /\ response_at k = Some statement
       /\ w' = with_requests (requests w ++ polls account_id statement_id (S k)) w.
Proof.
  unfold get_statement, bind. fold max_attempts.
  destruct (get_statement_loop env account_id statement_id
              (Z.to_nat max_attempts) 0 None None w)
    as [[[s r]|e] w1] eqn:Hloop; [| discriminate].
  destruct (is_Ready s) eqn:Hs; [| discriminate]. simpl.
  destruct r as [st|]; [| discriminate].
  intros [= <- <-].
  destruct (get_statement_loop_ready (Z.to_nat max_attempts) 0 None None w
              s (Some st) w1 eq_refl Hloop Hs)
    as (k & st' & Hk & Hp & Hrk & Hsk & [= <-] & ->).
  split; [exact Hsk |]. exists k. split; [lia |]. auto.
Qed.

(** X3: a response without the [Data/Statement/0/status] path, coming after
    pending responses and within the attempt bound, makes [get_statement]
    raise the lookup error at once, after [j + 1] polls. *)
Theorem get_statement_malformed (w : World) (j : nat) :
  (Z.of_nat j < max_attempts)%Z ->
  (forall i, i < j -> still_pending (response_at i)) ->
  match response_at j with
  | Some statement => statement_status statement = None
  | None => True
  end ->
  get_statement env account_id statement_id w
  = (Raise LookupError,
     with_requests (requests w ++ polls account_id statement_id (j + 1)) w).
Proof.
  intros Hj Hp Hbad.
  unfold get_statement, bind. fold max_attempts.
  replace (Z.to_nat max_attempts) with (j + S (Z.to_nat max_attempts - j - 1)) by lia.
  destruct (get_statement_loop_pending env account_id statement_id j
              (S (Z.to_nat max_attempts - j - 1)) 0 None None w eq_refl Hp)
    as (s' & r' & Hs' & ->).
  simpl get_statement_loop. rewrite Hs'.
  unfold bind, requests_get, try_except_lookup, try_except.
  fold response_at.
  destruct (response_at j) as [statement|]; [rewrite Hbad |]; simpl;
    unfold polls; rewrite <- app_assoc, repeat_app; reflexivity.
Qed.

End PollingBounds.

(** * The tables only grow *)

Section FreshExt.

Context {A K : Type} (f : A -> K).

Lemma fresh_ext_refl (P : A -> Prop) (l : list A) : fresh_ext f P l l.
Proof.
  exists []. rewrite app_nil_r. repeat split; constructor.
Qed.

Lemma fresh_ext_trans (P : A -> Prop) (l1 l2 l3 : list A) :
  fresh_ext f P l1 l2 -> fresh_ext f P l2 l3 -> fresh_ext f P l1 l3.
Proof.
  intros (a & -> & Pa & Na & Fa) (b & -> & Pb & Nb & Fb).
  exists (a ++ b). split; [now rewrite app_assoc |].
  split; [apply Forall_app; auto |].
  rewrite Forall_forall in Fa, Fb.
  split.
  - rewrite map_app. apply NoDup_app. split; [exact Na |]. split; [| exact Nb].
    intros k Hk Hk'. apply list_elem_of_In in Hk, Hk'.
    apply in_map_iff in Hk' as (x & <- & Hx).
    apply (Fb x); [apply list_elem_of_In, Hx |].
    rewrite map_app. apply in_or_app. now right.
  - apply Forall_app. split; apply Forall_forall.
    + intros x Hx. apply Fa, Hx.
    + intros x Hx Hin. apply (Fb x Hx). rewrite map_app. apply in_or_app. now left.
Qed.

Lemma fresh_ext_weaken (P Q : A -> Prop) (l1 l2 : list A) :
  (forall x, P x -> Q x) -> fresh_ext f P l1 l2 -> fresh_ext f Q l1 l2.
Proof.
  intros HPQ (a & -> & Pa & Na & Fa). exists a.
  repeat split; try assumption.
  rewrite Forall_forall in *. intros x Hx. apply HPQ, Pa, Hx.
Qed.

Lemma fresh_ext_one (P : A -> Prop) (l : list A) (x : A) :
  P x -> ~ In (f x) (map f l) -> fresh_ext f P l (l ++ [x]).
Proof.
  intros HP Hnew. exists [x]. split; [reflexivity |].
  split; [repeat constructor; exact HP |].
  split; [apply NoDup_singleton |].
  repeat constructor. exact Hnew.
Qed.

Lemma fresh_ext_NoDup (P : A -> Prop) (l1 l2 : list A) :
  fresh_ext f P l1 l2 -> NoDup (map f l1) -> NoDup (map f l2).
Proof.
  intros (a & -> & _ & Na & Fa) Hnd. rewrite map_app.
  apply NoDup_app. split; [exact Hnd |]. split; [| exact Na].
  intros k Hk Hk'. apply list_elem_of_In in Hk, Hk'.
  apply in_map_iff in Hk' as (x & <- & Hx).
  rewrite Forall_forall in Fa. apply (Fa x); [apply list_elem_of_In, Hx | exact Hk].
Qed.

End FreshExt.

Section Growth.

Variable env : Env.

Lemma grows_refl (P : Transaction -> Prop) (w : World) : grows P w w.
Proof. repeat split; try apply fresh_ext_refl. Qed.

Lemma grows_trans (P : Transaction -> Prop) (w1 w2 w3 : World) :
  grows P w1 w2 -> grows P w2 w3 -> grows P w1 w3.
Proof.
  intros (T1 & C1 & E1 & M1) (T2 & C2 & E2 & M2).
  repeat split; try (eapply fresh_ext_trans; eassumption). congruence.
Qed.

Lemma grows_weaken (P Q : Transaction -> Prop) (w w' : World) :
  (forall t, P t -> Q t) -> grows P w w' -> grows Q w w'.
Proof.
  intros HPQ (T & C & E & M). repeat split; try assumption.
  eapply fresh_ext_weaken; eassumption.
Qed.

Lemma grows_same_tables (P : Transaction -> Prop) (w w' : World) :
  same_tables w w' -> grows P w w'.
Proof.
  intros (H1 & H2 & H3 & H4 & _). unfold grows. rewrite H1, H2, H3, H4.
  repeat split; apply fresh_ext_refl.
Qed.

Lemma grows_only_requests (P : Transaction -> Prop) (account_id : string)
    (w w' : World) :
  only_requests account_id w w' -> grows P w w'.
Proof.
  intros (rs & -> & _). repeat split; apply fresh_ext_refl.
Qed.

Lemma preserves_weaken {A} (R R' : World -> World -> Prop) (m : M A) :
  (forall w w', R w w' -> R' w w') -> preserves R m -> preserves R' m.
Proof. intros H Hm w. apply H, Hm. Qed.

(** [filter(inn=inn).first()] finds nothing exactly when no row has the
    tax id, and otherwise a row of the table that has it. *)
Lemma contractor_first_spec (inn : string) (l : list Contractor)
    (acc : option Contractor) :
  let found :=
    fold_left
      (fun best c =>
         if bool_decide (contractor_inn_field c = Some inn)
         then match best with
              | None => Some c
              | Some b =>
                  if String.ltb (contractor_name c) (contractor_name b)
                  then Some c else Some b
              end
         else best) l acc in
  (found = None ->
   acc = None /\ ~ In (Some inn) (map contractor_inn_field l))
  /\ (forall c, found = Some c ->
      contractor_inn_field c = Some inn /\ In c l \/ acc = Some c).
Proof.
  revert acc. induction l as [|x l IH]; intros acc; simpl.
  - split; [intros ->; auto | intros c ->; auto].
  - destruct (IH (if bool_decide (contractor_inn_field x = Some inn)
                  then match acc with
                       | None => Some x
                       | Some b =>
                           if String.ltb (contractor_name x) (contractor_name b)
                           then Some x else Some b
                       end
                  else acc)) as [IHnone IHsome].
    split.
    + intros Hnone. destruct (IHnone Hnone) as [Hacc Hnot].
      destruct (bool_decide (contractor_inn_field x = Some inn)) eqn:Hx.
      * destruct acc as [b|]; [destruct (String.ltb _ _) |]; discriminate.
      * apply bool_decide_eq_false in Hx. split; [exact Hacc |].
        intros [Heq | Hin]; [congruence | contradiction].
    + intros c Hc. destruct (IHsome c Hc) as [[Hinn Hin] | Hacc]; [auto |].
      destruct (bool_decide (contractor_inn_field x = Some inn)) eqn:Hx; [| auto].
      apply bool_decide_eq_true in Hx.
      destruct acc as [b|].
      * destruct (String.ltb _ _); injection Hacc as <-; auto.
      * injection Hacc as <-. auto.
Qed.

Lemma truthy_nonempty (s : string) : PyStr.truthy s = true -> s <> "".
Proof. destruct s; [discriminate | discriminate]. Qed.

(** The contractor step: the row returned carries the tax id and is in the
    table afterwards; a row is created only when the table has none with
    this tax id; nothing but the contractor table changes. *)
Lemma find_or_create_contractor_grows (party : Party) (inn bic : string)
    (w : World) :
  exists (contractor : option Contractor) (l : list Contractor),
    find_or_create_contractor party inn bic w
    = (Ok contractor, with_contractors l w)
    /\ fresh_ext contractor_inn_field contractor_ok (contractors w) l
    /\ (inn = "" -> contractor = None /\ l = contractors w)
    /\ (inn <> "" ->
        exists c, contractor = Some c /\ In c l
                  /\ contractor_inn_field c = Some inn
                  /\ (In (Some inn) (contractor_inns w) -> l = contractors w)).
Proof.
  unfold find_or_create_contractor, bind, contractor_first, contractor_create, ret.
  destruct (PyStr.truthy inn) eqn:Hinn.
  - pose proof (contractor_first_spec inn (contractors w) None) as [Hnone Hsome].
    cbv zeta in Hnone, Hsome.
    destruct (fold_left _ (contractors w) None) as [c|].
    + exists (Some c), (contractors w).
      split; [destruct w; reflexivity |].
      split; [apply fresh_ext_refl |].
      split; [intros ->; discriminate |].
      intros _. exists c.
      destruct (Hsome c eq_refl) as [[Hc Hin] | Hacc]; [| discriminate].
      auto.
    + destruct (Hnone eq_refl) as [_ Hnot].
      eexists (Some _), (contractors w ++ [_]).
      split; [reflexivity |].
      split.
      { apply fresh_ext_one; [| exact Hnot].
        exists inn. split; [reflexivity |].
        split; [apply truthy_nonempty, Hinn |].
        simpl. destruct (PyStr.truthy (get_strip (party_name party))) eqn:Hname;
          [apply truthy_nonempty, Hname | discriminate]. }
      split; [intros ->; discriminate |].
      intros _. eexists. split; [reflexivity |].
      split; [apply in_or_app; right; now left |].
      split; [reflexivity |].
      intros Hin. contradiction.
  - exists None, (contractors w).
    split; [destruct w; reflexivity |].
    split; [apply fresh_ext_refl |].
    split; [auto |].
    intros Hne. destruct inn; [congruence | discriminate].
Qed.

(** The category tables after [get_or_create]: the name is there, and it
    was appended only if it was missing. *)
Lemma expense_category_get_or_create_grows (P : Transaction -> Prop)
    (name : string) :
  preserves (grows P) (expense_category_get_or_create name).
Proof.
  intros w. unfold expense_category_get_or_create.
  destruct (existsb (String.eqb name) (expense_categories w)) eqn:E.
  - apply grows_refl.
  - simpl. repeat split; try apply fresh_ext_refl.
    apply fresh_ext_one; [exact I |].
    rewrite map_id. intros Hin.
    assert (existsb (String.eqb name) (expense_categories w) = true).
    { apply existsb_exists. exists name. split; [exact Hin | apply String.eqb_refl]. }
    congruence.
Qed.

Lemma assign_category_grows (P : Transaction -> Prop)
    (direction : option string) (purpose inn : string) :
  preserves (grows P) (assign_category env direction purpose inn).
Proof.
  unfold assign_category.
  destruct (is_direction direction "Credit").
  { apply (preserves_bind _ (grows_trans P));
      [apply expense_category_get_or_create_grows |].
    intros c. apply (preserves_ret _ (grows_refl P)). }
  destruct (is_direction direction "Debit");
    [| apply (preserves_ret _ (grows_refl P))].
  apply (preserves_bind _ (grows_trans P)).
  { eapply preserves_weaken; [apply grows_same_tables |].
    apply find_best_category_tables. }
  intros [[name score] boosts].
  destruct (opt_truthy name).
  { apply (preserves_bind _ (grows_trans P));
      [apply expense_category_get_or_create_grows |].
    intros c. apply (preserves_ret _ (grows_refl P)). }
  destruct (PyStr.truthy inn); [| apply (preserves_ret _ (grows_refl P))].
  apply (preserves_bind _ (grows_trans P)).
  { intros w. apply grows_refl. }
  intros [c|]; apply (preserves_ret _ (grows_refl P)).
Qed.

Lemma ingested_record_ok (td : TransactionData) (account batch : string)
    (d : DateTime) (contractor : option Contractor) (cat src : option string) :
  record_ok [account] batch (ingested_record td account batch d contractor cat src).
Proof.
  unfold record_ok, one_amount, ingested_record. simpl.
  destruct (outgoing td); repeat split; auto.
Qed.

(** The steps of [_save_transaction] on a payload with a well-formed date
    and a new key, in terms of the contractor step and the category step. *)
Lemma _save_transaction_steps (td : TransactionData) (account batch : string)
    (w w1 : World) (d : DateTime) (contractor : option Contractor) :
  payload_date env td = Some d ->
  existsb (same_key d (payload_inn td) (payload_bic td) (payload_purpose td))
          (transactions w) = false ->
  find_or_create_contractor (payload_party td) (payload_inn td) (payload_bic td) w
  = (Ok contractor, w1) ->
  _save_transaction env td account batch w
  = (Ok tt,
     match assign_category env (creditDebitIndicator td) (payload_purpose td)
             (payload_inn td) w1 with
     | (Ok (cat, src), w2) =>
         with_transactions
           (transactions w2
            ++ [ingested_record td account batch d contractor cat src]) w2
     | (Raise _, w2) => w2
     end).
Proof.
  unfold payload_date, _save_transaction, try_except, bind, ret, raise.
  intros ->.
  unfold ingested_record, payload_inn, payload_bic, payload_purpose,
    payload_party, payload_agent, payload_account_data, payload_amount, outgoing.
  destruct (is_direction (creditDebitIndicator td) "Debit");
    cbv beta iota zeta; unfold transaction_exists; cbv beta iota zeta;
    intros -> ->;
    match goal with
    | |- context [assign_category ?e ?dir ?p ?i ?w0] =>
        destruct (assign_category e dir p i w0) as [[[cat src]|ex] w2]
    end; reflexivity.
Qed.

(** One ingestion appends at most one record, with a new key, and rows with
    new keys to the contractor and category tables. *)
Lemma _save_transaction_grows (td : TransactionData) (account batch : string) :
  preserves (grows (record_ok [account] batch))
            (_save_transaction env td account batch).
Proof.
  intros w.
  pose proof (_save_transaction_run env td account batch w) as Hrun.
  destruct (payload_date env td) as [d|] eqn:Hd; [| rewrite Hrun; apply grows_refl].
  destruct (existsb _ (transactions w)) eqn:Hdup;
    [rewrite Hrun; apply grows_refl |].
  clear Hrun.
  destruct (find_or_create_contractor_grows (payload_party td) (payload_inn td)
              (payload_bic td) w) as (contractor & l & Hfc & Hext & _).
  rewrite (_save_transaction_steps td account batch w _ d contractor Hd Hdup Hfc).
  cbn [snd].
  pose proof (assign_category_grows (record_ok [account] batch)
                (creditDebitIndicator td) (payload_purpose td) (payload_inn td)
                (with_contractors l w)) as Hcat.
  destruct (assign_category_run env (creditDebitIndicator td) (payload_purpose td)
              (payload_inn td) (with_contractors l w)) as ([Htr _] & _).
  assert (Hw1 : grows (record_ok [account] batch) w (with_contractors l w)).
  { repeat split; try apply fresh_ext_refl. exact Hext. }
  destruct (assign_category env (creditDebitIndicator td) (payload_purpose td)
              (payload_inn td) (with_contractors l w)) as [[[cat src]|ex] w2];
    cbn [snd] in Hcat, Htr; [| eapply grows_trans; eassumption].
  destruct (grows_trans _ _ _ _ Hw1 Hcat) as (_ & C & E & Mp).
  assert (Hnew : ~ In (d, payload_inn td, payload_bic td, payload_purpose td)
                      (keys w)).
  { intros Hin. apply existsb_same_key in Hin. congruence. }
  split; [| repeat split; assumption].
  simpl. rewrite Htr. simpl.
  apply fresh_ext_one; [apply ingested_record_ok | exact Hnew].
Qed.

End Growth.

(** * Invariants of a whole run *)

Section RunInvariants.

Variable env : Env.
Variables start_date end_date batch : string.

Lemma save_entries_grows (entries : list TransactionData) (account : string) :
  preserves (grows (record_ok [account] batch))
            (save_entries env entries account batch).
Proof.
  induction entries as [|td entries IH]; simpl.
  - apply (preserves_ret _ (grows_refl _)).
  - apply (preserves_bind _ (grows_trans _)).
    + apply _save_transaction_grows.
    + intros _. exact IH.
Qed.

Lemma fetch_account_grows (account : string) :
  preserves (grows (record_ok [account] batch))
            (fetch_account env start_date end_date batch account).
Proof.
  unfold fetch_account, try_except_lookup.
  set (account_id := (account ++ "/" ++ BANK_BIC (settings env))%string).
  apply (preserves_bind _ (grows_trans _)).
  { eapply preserves_weaken; [apply (grows_only_requests _ account_id) |].
    apply create_statement_requests. }
  intros response.
  apply (preserves_try_except _ (grows_trans _)).
  - apply (preserves_bind _ (grows_trans _)).
    { destruct response;
        [apply (preserves_ret _ (grows_refl _))
        | apply (preserves_raise _ (grows_refl _))]. }
    intros statement_id.
    apply (preserves_bind _ (grows_trans _)).
    { eapply preserves_weaken; [apply (grows_only_requests _ account_id) |].
      apply get_statement_requests. }
    intros statement_data. apply save_entries_grows.
  - intros e. destruct e; apply (preserves_raise _ (grows_refl _)).
Qed.

Lemma fetch_accounts_grows (all accounts : list string) :
  (forall a, In a accounts -> In a all) ->
  preserves (grows (record_ok all batch))
            (fetch_accounts env start_date end_date batch accounts).
Proof.
  induction accounts as [|a accounts IH]; intros Hsub; simpl.
  - apply (preserves_ret _ (grows_refl _)).
  - apply (preserves_bind _ (grows_trans _)).
    + eapply preserves_weaken; [| apply (fetch_account_grows a)].
      intros w w'. apply grows_weaken.
      intros t (Hacc & Hrest). split; [| exact Hrest].
      destruct Hacc as [<- | []]. apply Hsub. now left.
    + intros _. apply IH. intros a' Ha'. apply Hsub. now right.
Qed.

Lemma fetch_and_save_statements_grows :
  preserves (grows (record_ok (BANK_ACCOUNTS (settings env)) batch))
            (fetch_and_save_statements env start_date end_date batch).
Proof. apply fetch_accounts_grows. auto. Qed.

(** X4: a run of [fetch_and_save_statements], whether it ends normally or
    with an exception, keeps the natural keys of the stored transactions
    pairwise distinct. *)
Theorem fetch_and_save_statements_unique_keys (w : World) :
  unique_keys w ->
  unique_keys (snd (fetch_and_save_statements env start_date end_date batch w)).
Proof.
  intros Hu. destruct (fetch_and_save_statements_grows w) as (T & _).
  exact (fresh_ext_NoDup _ _ _ _ T Hu).
Qed.

(** X5: a run never removes or changes a stored transaction; the records
    it appends are for configured accounts, carry the batch id of the run,
    have exactly one of the debit and credit amounts, the month and year
    of their date, and are neither notified nor exported. *)
Theorem fetch_and_save_statements_appends (w : World) :
  exists l,
    transactions (snd (fetch_and_save_statements env start_date end_date batch w))
    = transactions w ++ l
    /\ Forall (record_ok (BANK_ACCOUNTS (settings env)) batch) l.
Proof.
  destruct (fetch_and_save_statements_grows w) as ((l & Hl & Pl & _) & _).
  exists l. split; assumption.
Qed.

(** X6: a run never removes a contractor; every contractor it creates has
    a non-empty tax id and a non-empty name; and if no two contractors
    share a tax id before the run, none do after it. *)
Theorem fetch_and_save_statements_contractors (w : World) :
  let w' := snd (fetch_and_save_statements env start_date end_date batch w) in
  (exists l, contractors w' = contractors w ++ l /\ Forall contractor_ok l)
  /\ (NoDup (contractor_inns w) -> NoDup (contractor_inns w')).
Proof.
  destruct (fetch_and_save_statements_grows w) as (_ & C & _).
  split.
  - destruct C as (l & Hl & Pl & _). exists l. split; assumption.
  - exact (fresh_ext_NoDup _ _ _ _ C).
Qed.

(** X7: a run never writes the INN mappings, never removes an expense
    category, and keeps the category names pairwise distinct. *)
Theorem fetch_and_save_statements_categories (w : World) :
  let w' := snd (fetch_and_save_statements env start_date end_date batch w) in
  expense_mappings w' = expense_mappings w
  /\ (exists l, expense_categories w' = expense_categories w ++ l)
  /\ (NoDup (expense_categories w) -> NoDup (expense_categories w')).
Proof.
  destruct (fetch_and_save_statements_grows w) as (_ & _ & E & Mp).
  split; [exact Mp |]. split.
  - destruct E as (l & Hl & _). exists l. exact Hl.
  - intros Hnd. pose proof (fresh_ext_NoDup _ _ _ _ E) as H.
    rewrite !map_id in H. exact (H Hnd).
Qed.

End RunInvariants.

(** * Further properties of the ingestion *)

Section IngestionSteps.

Variable env : Env.

Lemma save_entries_app (l1 l2 : list TransactionData) (account batch : string)
    (w : World) :
  save_entries env (l1 ++ l2) account batch w
  = save_entries env l2 account batch
      (snd (save_entries env l1 account batch w)).
Proof.
  revert w. induction l1 as [|td l1 IH]; intros w; simpl; [reflexivity |].
  unfold bind.
  pose proof (_save_transaction_transactions env td account batch w) as (H & _).
  destruct (_save_transaction env td account batch w) as [[[]|e] w1];
    simpl in H; [apply IH | discriminate].
Qed.

(** X9: a payload whose date is missing or not in the expected format is
    skipped: the batch is processed as if the payload were not there, and
    the loop over a batch never raises. *)
Theorem save_entries_skips_undated (l1 l2 : list TransactionData)
    (td : TransactionData) (account batch : string) (w : World) :
  payload_date env td = None ->
  save_entries env (l1 ++ td :: l2) account batch w
  = save_entries env (l1 ++ l2) account batch w
  /\ fst (save_entries env (l1 ++ td :: l2) account batch w) = Ok tt.
Proof.
  intros Hd. split; [| apply save_entries_returns].
  rewrite !save_entries_app. simpl. unfold bind.
  pose proof (_save_transaction_run env td account batch
                (snd (save_entries env l1 account batch w))) as Hrun.
  rewrite Hd in Hrun. rewrite Hrun. reflexivity.
Qed.

(** The contractor table and the request log are the same. *)
Lemma same_side_trans (w1 w2 w3 : World) :
  contractors w2 = contractors w1 /\ requests w2 = requests w1 ->
  contractors w3 = contractors w2 /\ requests w3 = requests w2 ->
  contractors w3 = contractors w1 /\ requests w3 = requests w1.
Proof. intros [H1 H2] [K1 K2]. split; congruence. Qed.

Lemma expense_category_get_or_create_side (name : string) :
  preserves (fun w w' => contractors w' = contractors w
                         /\ requests w' = requests w)
            (expense_category_get_or_create name).
Proof.
  intros w. unfold expense_category_get_or_create.
  destruct (existsb _ _); split; reflexivity.
Qed.

(** The category step leaves the contractor table and the request log
    alone. *)
Lemma assign_category_side (direction : option string)
    (purpose inn : string) :
  preserves (fun w w' => contractors w' = contractors w
                         /\ requests w' = requests w)
            (assign_category env direction purpose inn).
Proof.
  set (R := fun w w' : World => contractors w' = contractors w
                                /\ requests w' = requests w).
  assert (Rrefl : forall w, R w w) by (split; reflexivity).
  unfold assign_category.
  destruct (is_direction direction "Credit").
  { apply (preserves_bind R same_side_trans);
      [apply expense_category_get_or_create_side |].
    intros c. apply (preserves_ret R Rrefl). }
  destruct (is_direction direction "Debit"); [| apply (preserves_ret R Rrefl)].
  apply (preserves_bind R same_side_trans).
  { intros w. destruct (find_best_category_tables env purpose
                          (CATEGORY_KEYWORDS env)
                          (EMBEDDING_SIMILARITY_THRESHOLD (settings env)) w)
      as (_ & H & _ & _ & H'). split; assumption. }
  intros [[name score] boosts].
  destruct (opt_truthy name).
  { apply (preserves_bind R same_side_trans);
      [apply expense_category_get_or_create_side |].
    intros c. apply (preserves_ret R Rrefl). }
  destruct (PyStr.truthy inn); [| apply (preserves_ret R Rrefl)].
  apply (preserves_bind R same_side_trans).
  { intros w. apply Rrefl. }
  intros [c|]; apply (preserves_ret R Rrefl).
Qed.

(** X8: the record stored for a payload carries the payload's stripped tax
    id; with an empty tax id it has no contractor and no contractor row is
    created; with a non-empty one it points to a contractor row of that tax
    id, and a row is created only when the table had none with it (the
    name in the payload is then ignored). *)
Theorem contractor_linkage (td : TransactionData) (account batch : string)
    (w : World) (t : Transaction) :
  let w' := snd (_save_transaction env td account batch w) in
  transactions w' = transactions w ++ [t] ->
  contractor_inn t = payload_inn td
  /\ (contractor_inn t = "" ->
      contractor t = None /\ contractors w' = contractors w)
  /\ (contractor_inn t <> "" ->
      exists c, In c (contractors w')
                /\ contractor t = Some (contractor_pk c)
                /\ contractor_inn_field c = Some (contractor_inn t))
  /\ (In (Some (contractor_inn t)) (contractor_inns w) ->
      contractors w' = contractors w).
Proof.
  intros w'. subst w'.
  pose proof (_save_transaction_run env td account batch w) as Hrun.
  destruct (payload_date env td) as [d|] eqn:Hd.
  2:{ rewrite Hrun. simpl. intros H. exfalso.
      apply (f_equal (@length _)) in H. rewrite length_app in H. simpl in H. lia. }
  destruct (existsb _ (transactions w)) eqn:Hdup.
  { rewrite Hrun. simpl. intros H. exfalso.
    apply (f_equal (@length _)) in H. rewrite length_app in H. simpl in H. lia. }
  clear Hrun.
  destruct (find_or_create_contractor_grows (payload_party td) (payload_inn td)
              (payload_bic td) w) as (contractor & l & Hfc & _ & Hempty & Hinn).
  rewrite (_save_transaction_steps env td account batch w _ d contractor
             Hd Hdup Hfc).
  cbn [snd].
  pose proof (assign_category_side (creditDebitIndicator td)
                (payload_purpose td) (payload_inn td) (with_contractors l w))
    as [Hc _].
  destruct (assign_category_run env (creditDebitIndicator td) (payload_purpose td)
              (payload_inn td) (with_contractors l w)) as ([Htr _] & _).
  destruct (assign_category env (creditDebitIndicator td) (payload_purpose td)
              (payload_inn td) (with_contractors l w)) as [[[cat src]|ex] w2];
    cbn [snd] in Hc, Htr; simpl in Hc, Htr.
  2:{ rewrite Htr. intros H. exfalso.
      apply (f_equal (@length _)) in H. rewrite length_app in H. simpl in H. lia. }
  simpl. rewrite Htr, Hc. intros H. apply app_inv_head in H.
  injection H as <-. simpl.
  split; [reflexivity |]. split; [| split].
  - intros He. destruct (Hempty He) as [-> ->]. auto.
  - intros Hne. destruct (Hinn Hne) as (c & -> & Hin & Hf & _).
    exists c. auto.
  - intros Hin. destruct (string_dec (payload_inn td) "") as [He | Hne].
    + destruct (Hempty He) as [_ ->]. reflexivity.
    + destruct (Hinn Hne) as (c & _ & _ & _ & Hsame). apply Hsame, Hin.
Qed.

(** Without a client the first embedding lookup raises, and nothing is
    changed. *)
Lemma max_sentence_similarity_no_client (keyword sentence : string)
    (sentences : list string) (acc : Q) (w : World) :
  client env = false ->
  max_sentence_similarity env keyword (sentence :: sentences) acc w
  = (Raise RuntimeError, w).
Proof.
  intros Hc. simpl. unfold bind, calculate_similarity, bind, get_embedding.
  rewrite Hc. reflexivity.
Qed.

Lemma scan_categories_no_client (text : string) (sentences : list string)
    (items : list (string * list string)) (best : Best) (w : World) :
  client env = false -> sentences <> [] ->
  (exists category keywords keyword,
      In (category, keywords) items /\ In keyword keywords) ->
  scan_categories env text sentences items best w = (Raise RuntimeError, w).
Proof.
  intros Hc Hs. destruct sentences as [|s sentences]; [congruence |]. clear Hs.
  induction items as [|[c ks] items IH]; intros (c' & ks' & k & Hin & Hk).
  - destruct Hin.
  - destruct ks as [|k0 ks].
    + cbn [scan_categories scan_keywords]. unfold bind, ret. apply IH. destruct Hin as [[= <- <-] | Hin];
        [destruct Hk | eauto].
    + cbn [scan_categories scan_keywords]. unfold bind at 1. unfold bind at 1.
      rewrite (max_sentence_similarity_no_client k0 s sentences 0%Q w Hc).
      reflexivity.
Qed.

Lemma split_into_sentences_some (text : string) :
  text <> "" -> split_into_sentences text <> [].
Proof.
  intros Ht. unfold split_into_sentences.
  destruct text; [congruence |]. simpl negb. cbv iota.
  match goal with |- context [list_truthy ?l] => destruct l eqn:E end;
    simpl; congruence.
Qed.

(** X11: without an embedding client, [find_best_category] raises the
    runtime error, and changes nothing, for every non-empty text as soon as
    the keyword table has one keyword. *)
Theorem find_best_category_no_client (text : string)
    (items : list (string * list string)) (threshold : Q) (w : World) :
  client env = false ->
  text <> "" ->
  (exists category keywords keyword,
      In (category, keywords) items /\ In keyword keywords) ->
  find_best_category env text items threshold w = (Raise RuntimeError, w).
Proof.
  intros Hc Ht Hk. unfold find_best_category, bind.
  rewrite scan_categories_no_client; auto using split_into_sentences_some.
Qed.

(** X10: when the matcher raises on an outgoing payload (well-formed date,
    new key), the ingestion still ends normally, but the payload is not
    stored; the contractor row created for it before the matcher ran
    stays, and no category is created. *)
Theorem debit_dropped_when_matcher_raises (td : TransactionData)
    (account batch : string) (w : World) (d : DateTime) (e : exn) :
  let w1 := snd (find_or_create_contractor (payload_party td) (payload_inn td)
                   (payload_bic td) w) in
  outgoing td = true ->
  payload_date env td = Some d ->
  ~ In (d, payload_inn td, payload_bic td, payload_purpose td) (keys w) ->
  fst (find_best_category env (payload_purpose td) (CATEGORY_KEYWORDS env)
         (EMBEDDING_SIMILARITY_THRESHOLD (settings env)) w1) = Raise e ->
  let r := _save_transaction env td account batch w in
  fst r = Ok tt
  /\ transactions (snd r) = transactions w
  /\ contractors (snd r) = contractors w1
  /\ expense_categories (snd r) = expense_categories w
  /\ (payload_inn td <> "" ->
      ~ In (Some (payload_inn td)) (contractor_inns w) ->
      length (contractors (snd r)) = S (length (contractors w))).
Proof.
  intros w1 Hout Hd Hnew Hraise r. subst r.
  assert (Hdup : existsb (same_key d (payload_inn td) (payload_bic td)
                            (payload_purpose td)) (transactions w) = false).
  { destruct (existsb _ _) eqn:E; [| reflexivity].
    apply existsb_same_key in E. contradiction. }
  pose proof (find_or_create_contractor_run (payload_party td) (payload_inn td)
                (payload_bic td) w) as (contractor & l & Hfc).
  assert (Hw1 : w1 = with_contractors l w) by (unfold w1; now rewrite Hfc).
  rewrite (_save_transaction_steps env td account batch w _ d contractor
             Hd Hdup Hfc).
  assert (Hdir : creditDebitIndicator td = Some "Debit").
  { unfold outgoing, is_direction in Hout.
    destruct (creditDebitIndicator td) as [s|]; [| discriminate].
    apply String.eqb_eq in Hout. now subst s. }
  pose proof (find_best_category_tables env (payload_purpose td)
                (CATEGORY_KEYWORDS env)
                (EMBEDDING_SIMILARITY_THRESHOLD (settings env)) w1)
    as (T1 & T2 & T3 & _).
  destruct (find_best_category env (payload_purpose td) (CATEGORY_KEYWORDS env)
              (EMBEDDING_SIMILARITY_THRESHOLD (settings env)) w1)
    as [[best|e'] w2] eqn:Hfb; simpl in Hraise; [discriminate |].
  cbn [fst snd] in *.
  assert (Hcat : assign_category env (creditDebitIndicator td)
                   (payload_purpose td) (payload_inn td) (with_contractors l w)
                 = (Raise e', w2)).
  { unfold assign_category. rewrite Hdir.
    change (is_direction (Some "Debit") "Credit") with false.
    change (is_direction (Some "Debit") "Debit") with true.
    cbv iota. unfold bind. rewrite <- Hw1, Hfb. reflexivity. }
  rewrite Hcat. cbn [fst snd].
  split; [reflexivity |]. rewrite T1, T2, T3, Hw1. simpl.
  repeat split.
  intros Hne Hnot.
  clear - Hfc Hne Hnot.
  unfold find_or_create_contractor, bind, contractor_first, contractor_create,
    ret in Hfc.
  destruct (PyStr.truthy (payload_inn td)) eqn:Htr;
    [| destruct (payload_inn td); [congruence | discriminate]].
  pose proof (contractor_first_spec (payload_inn td) (contractors w) None)
    as [_ Hsome].
  cbv zeta in Hsome.
  destruct (fold_left _ (contractors w) None) as [c|].
  - destruct (Hsome c eq_refl) as [[Hc Hin] | Hacc]; [| discriminate].
    exfalso. apply Hnot. unfold contractor_inns. rewrite <- Hc.
    apply in_map. exact Hin.
  - injection Hfc as _ Hl. rewrite <- Hl.
    rewrite length_app. simpl. lia.
Qed.

End IngestionSteps.

(** * The further properties on the example environments *)

Section MoreExamples.

(** X2 on the example bank: the statement of account [B] is returned at
    the second poll. *)
Lemma get_statement_returns_ready_witness :
  let statement := mkStatement (Some "Ready") (Some [demo_credit; demo_debit]) in
  let w' := with_requests (polls "B/044525104" "s1" 2) demo_world in
  get_statement demo_env "B/044525104" "s1" demo_world = (Ok statement, w')
  /\ statement_status statement = Some "Ready"
  /\ exists k : nat,
       (Z.of_nat k < BANK_STATEMENT_MAX_ATTEMPTS (settings demo_env))%Z
       /\ (forall i, i < k ->
             still_pending (get_statement_response demo_env "B/044525104" "s1" i))
       /\ get_statement_response demo_env "B/044525104" "s1" k = Some statement
       /\ w' = with_requests
                 (requests demo_world ++ polls "B/044525104" "s1" (S k))
                 demo_world.
Proof.
  intros statement w'.
  assert (H : get_statement demo_env "B/044525104" "s1" demo_world
              = (Ok statement, w')) by (vm_compute; reflexivity).
  split; [exact H |].
  exact (get_statement_returns_ready demo_env "B/044525104" "s1" demo_world w'
           statement H).
Defined.

(** X3 on a bank whose third response is not a statement. *)
Lemma get_statement_malformed_witness :
  get_statement faulty_env "B/044525104" "s1" demo_world
  = (Raise LookupError,
     with_requests (requests demo_world ++ polls "B/044525104" "s1" (2 + 1))
                   demo_world).
Proof.
  apply (get_statement_malformed faulty_env "B/044525104" "s1" demo_world 2).
  - simpl. lia.
  - intros i Hi. exists (mkStatement (Some "Created") None), "Created".
    split; [| repeat split; discriminate].
    destruct i as [|[|i]]; [reflexivity | reflexivity | lia].
  - exact I.
Defined.

(** X4 on the bank with the accounts [B] and [E]: the run stores the two
    transactions of [B] and then raises for [E]. *)
Lemma fetch_and_save_statements_unique_keys_witness :
  let run :=
    fetch_and_save_statements open_env "2025-06-11" "2025-06-12" "b1" demo_world in
  unique_keys demo_world
  /\ fst run = Raise StatementError
  /\ length (transactions (snd run)) = 2
  /\ unique_keys (snd run).
Proof.
  intros run.
  assert (Hu : unique_keys demo_world) by constructor.
  split; [exact Hu |].
  split; [vm_compute; reflexivity |].
  split; [vm_compute; reflexivity |].
  exact (fetch_and_save_statements_unique_keys open_env "2025-06-11" "2025-06-12"
           "b1" demo_world Hu).
Defined.

(** X8 on the outgoing example payload: the contractor of tax id 7701 is
    created and the record points to it. *)
Lemma contractor_linkage_witness :
  let w' := snd (_save_transaction steady_env demo_debit "B" "b1" demo_world) in
  exists t,
    transactions w' = transactions demo_world ++ [t]
    /\ contractor_inn t = "7701"
    /\ exists c, In c (contractors w')
                 /\ contractor t = Some (contractor_pk c)
                 /\ contractor_inn_field c = Some (contractor_inn t).
Proof.
  intros w'.
  set (t := ingested_record demo_debit "B" "b1" (mkDateTime 2025 6 11)
              (Some (mkContractor 0 "Tax office" (Some "7701") "044525000"))
              (Some "Taxes") (Some "map")).
  assert (Ht : transactions w' = transactions demo_world ++ [t])
    by (vm_compute; reflexivity).
  destruct (contractor_linkage steady_env demo_debit "B" "b1" demo_world t Ht)
    as (_ & _ & Hc & _).
  exists t. split; [exact Ht |]. split; [reflexivity |].
  apply Hc. discriminate.
Defined.

(** X9 on a batch whose second payload has a date in another format. *)
Lemma save_entries_skips_undated_witness :
  payload_date steady_env demo_undated = None
  /\ save_entries steady_env ([demo_credit] ++ demo_undated :: [demo_debit])
                  "B" "b1" demo_world
     = save_entries steady_env ([demo_credit] ++ [demo_debit]) "B" "b1" demo_world
  /\ fst (save_entries steady_env ([demo_credit] ++ demo_undated :: [demo_debit])
                       "B" "b1" demo_world) = Ok tt.
Proof.
  assert (Hd : payload_date steady_env demo_undated = None) by reflexivity.
  split; [exact Hd |].
  exact (save_entries_skips_undated steady_env [demo_credit] [demo_debit]
           demo_undated "B" "b1" demo_world Hd).
Defined.

(** X11 on the environment without a client. *)
Lemma find_best_category_no_client_witness :
  client offline_env = false
  /\ find_best_category offline_env "misc" demo_keywords 0.7 demo_world
     = (Raise RuntimeError, demo_world).
Proof.
  split; [reflexivity |].
  apply find_best_category_no_client; [reflexivity | discriminate |].
  exists "Rent", ["rent"], "rent". split; simpl; auto.
Defined.

(** X10 on the environment without a client: the outgoing example payload
    is dropped, its contractor stays. *)
Lemma debit_dropped_when_matcher_raises_witness :
  let r := _save_transaction offline_env demo_debit "B" "b1" demo_world in
  outgoing demo_debit = true
  /\ fst r = Ok tt
  /\ transactions (snd r) = transactions demo_world
  /\ length (contractors (snd r)) = S (length (contractors demo_world)).
Proof.
  intros r.
  assert (Hout : outgoing demo_debit = true) by reflexivity.
  split; [exact Hout |].
  destruct (debit_dropped_when_matcher_raises offline_env demo_debit "B" "b1"
              demo_world (mkDateTime 2025 6 11) RuntimeError)
    as (H1 & H2 & _ & _ & H5).
  - exact Hout.
  - reflexivity.
  - simpl. tauto.
  - vm_compute. reflexivity.
  - split; [exact H1 |]. split; [exact H2 |].
    apply H5; [vm_compute; discriminate | simpl; tauto].
Defined.

End MoreExamples.

(** * The footprint of the matcher *)

Section MatcherFootprint.

Variable env : Env.

Lemma footprint_refl (P : string -> Prop) (w : World) : footprint P w w.
Proof.
  split; [apply same_tables_refl |]. split; [reflexivity |].
  split; [left; reflexivity |].
  exists []. rewrite app_nil_r. split; [reflexivity | constructor].
Qed.

Lemma footprint_trans (P : string -> Prop) (w1 w2 w3 : World) :
  footprint P w1 w2 -> footprint P w2 w3 -> footprint P w1 w3.
Proof.
  intros (T & K & D & l & Hl & Fl) (T' & K' & D' & l' & Hl' & Fl').
  assert (Hc : forall t, cached w1 t -> cached w2 t).
  { intros t Ht. pose proof (K t Ht) as E.
    destruct Ht as (e & He & Htr). exists e. split; congruence. }
  split; [eapply same_tables_trans; eassumption |].
  split; [intros t Ht; rewrite (K' t (Hc t Ht)); apply K, Ht |].
  split.
  - intros t. destruct (D' t) as [E' | HP]; [| now right].
    destruct (D t) as [E | HP]; [left; congruence | now right].
  - exists (l ++ l'). split; [rewrite Hl', Hl; apply eq_sym, app_assoc |].
    apply Forall_app. split; [exact Fl |].
    eapply List.Forall_impl; [| exact Fl'].
    intros t [HP Hn]. split; [exact HP |]. intros Ht. apply Hn, Hc, Ht.
Qed.

Lemma footprint_weaken (P Q : string -> Prop) (w w' : World) :
  (forall t, P t -> Q t) -> footprint P w w' -> footprint Q w w'.
Proof.
  intros HPQ (T & K & D & l & Hl & Fl).
  split; [exact T |]. split; [exact K |]. split.
  - intros t. destruct (D t); auto.
  - exists l. split; [exact Hl |].
    eapply List.Forall_impl; [| exact Fl]. intros t [HP Hn]. auto.
Qed.

Ltac fp_bind P := apply (preserves_bind (footprint P) (footprint_trans P)).
Ltac fp_ret P := apply (preserves_ret (footprint P) (footprint_refl P)).

(** One lookup: nothing happens on a usable cache entry (or without a
    client); otherwise the provider is asked once, for this text, and its
    answer is stored under this text. *)
Lemma get_embedding_footprint (text : string) :
  preserves (footprint (eq text)) (get_embedding env text).
Proof.
  intros w. unfold get_embedding.
  destruct (client env); [| apply footprint_refl]. cbv beta iota zeta delta [negb].
  unfold bind at 1. unfold get_cached_embedding. cbv beta iota.
  assert (Hreq :
            ~ cached w text ->
            footprint (eq text) w
              (snd (try_except
                      (embedding <- request_embedding env text ;;
                       save_embedding text embedding ;;;
                       ret embedding)
                      (fun e => raise e) w))).
  { intros Hn.
    unfold try_except, bind, request_embedding, save_embedding, ret, raise.
    destruct (embeddings_create env _ text) as [emb|]; simpl.
    - split; [repeat split |]. split.
      { intros t Ht. apply lookup_insert_ne. intros <-. contradiction. }
      split.
      { intros t. destruct (decide (text = t)) as [E | E]; [now right |].
        left. apply lookup_insert_ne. exact E. }
      exists [text]. split; [reflexivity |]. repeat constructor. exact Hn.
    - split; [repeat split |]. split; [reflexivity |].
      split; [now left |].
      exists [text]. split; [reflexivity |]. repeat constructor. exact Hn. }
  destruct (embedding_cache w !! text) as [e|] eqn:Hc.
  - destruct (list_truthy e) eqn:Ht; [apply footprint_refl | apply Hreq].
    intros (e' & He' & Htr'). congruence.
  - apply Hreq. intros (e' & He' & _). congruence.
Qed.

Lemma calculate_similarity_footprint (text1 text2 : string) :
  preserves (footprint (fun t => t = text1 \/ t = text2))
            (calculate_similarity env text1 text2).
Proof.
  set (P := fun t => t = text1 \/ t = text2).
  unfold calculate_similarity.
  fp_bind P.
  { eapply preserves_weaken; [| apply get_embedding_footprint].
    intros w w'. apply footprint_weaken. intros t <-. now left. }
  intros emb1. fp_bind P.
  { eapply preserves_weaken; [| apply get_embedding_footprint].
    intros w w'. apply footprint_weaken. intros t <-. now right. }
  intros emb2. fp_ret P.
Qed.

Lemma max_sentence_similarity_footprint (keyword : string)
    (sentences : list string) (acc : Q) :
  preserves (footprint (fun t => In t sentences \/ t = keyword))
            (max_sentence_similarity env keyword sentences acc).
Proof.
  revert acc. induction sentences as [|s ss IH]; intros acc.
  - fp_ret (fun t => In t (@nil string) \/ t = keyword).
  - set (P := fun t => In t (s :: ss) \/ t = keyword).
    cbn [max_sentence_similarity]. fp_bind P.
    + eapply preserves_weaken; [| apply calculate_similarity_footprint].
      intros w w'. apply footprint_weaken. intros t [-> | ->];
        [left; now left | now right].
    + intros sim. eapply preserves_weaken; [| apply IH].
      intros w w'. apply footprint_weaken. intros t [H | H];
        [left; now right | now right].
Qed.

Lemma scan_keywords_footprint (text : string) (sentences : list string)
    (category : string) (keywords : list string) (best : Best) :
  preserves (footprint (fun t => In t sentences \/ In t keywords))
            (scan_keywords env text sentences category keywords best).
Proof.
  revert best. induction keywords as [|k ks IH]; intros best.
  - fp_ret (fun t => In t sentences \/ In t (@nil string)).
  - set (P := fun t => In t sentences \/ In t (k :: ks)).
    cbn [scan_keywords]. fp_bind P.
    + eapply preserves_weaken; [| apply max_sentence_similarity_footprint].
      intros w w'. apply footprint_weaken. intros t [H | ->];
        [now left | right; now left].
    + intros sim.
      destruct (calculate_match_score (nlp env) text k sim) as [score boosts].
      destruct best as [[bc bs] bb].
      eapply preserves_weaken; [| apply IH].
      intros w w'. apply footprint_weaken. intros t [H | H];
        [now left | right; now right].
Qed.

Lemma scan_categories_footprint (text : string) (sentences : list string)
    (items : list (string * list string)) (best : Best) :
  preserves (footprint (fun t => In t sentences \/ In t (all_keywords items)))
            (scan_categories env text sentences items best).
Proof.
  revert best. induction items as [|[c ks] items IH]; intros best.
  - fp_ret (fun t => In t sentences \/ In t (all_keywords [])).
  - set (P := fun t => In t sentences \/ In t (all_keywords ((c, ks) :: items))).
    cbn [scan_categories]. fp_bind P.
    + eapply preserves_weaken; [| apply scan_keywords_footprint].
      intros w w'. apply footprint_weaken. intros t [H | H]; [now left |].
      right. unfold all_keywords. simpl. apply in_or_app. now left.
    + intros best'. eapply preserves_weaken; [| apply IH].
      intros w w'. apply footprint_weaken. intros t [H | H]; [now left |].
      right. unfold all_keywords. simpl. apply in_or_app. now right.
Qed.

Lemma in_all_keywords (items : list (string * list string)) (t : string) :
  In t (all_keywords items)
  <-> exists category keywords, In (category, keywords) items /\ In t keywords.
Proof.
  unfold all_keywords. rewrite in_concat. split.
  - intros (ks & Hks & Ht). apply in_map_iff in Hks as ([c ks'] & <- & Hin).
    exists c, ks'. auto.
  - intros (c & ks & Hin & Ht). exists ks. split; [| exact Ht].
    apply in_map_iff. exists (c, ks). auto.
Qed.

Lemma find_best_category_footprint_rel (text : string)
    (items : list (string * list string)) (threshold : Q) :
  preserves (footprint (asked_texts text items))
            (find_best_category env text items threshold).
Proof.
  unfold find_best_category. cbv zeta.
  fp_bind (asked_texts text items).
  - eapply preserves_weaken; [| apply scan_categories_footprint].
    intros w w'. apply footprint_weaken. intros t [H | H]; [now left |].
    right. apply in_all_keywords, H.
  - intros [[bc bs] bb].
    destruct (Qle_bool threshold bs); fp_ret (asked_texts text items).
Qed.

(** X12: a categorisation touches nothing but the embedding cache and the
    provider: the tables and the request log stay as they are; every text
    sent to the provider is a sentence of the purpose or a keyword of the
    table, and had no usable cache entry; usable cache entries are never
    replaced; and the cache changes at sentences and keywords only. *)
Theorem find_best_category_footprint (text : string)
    (items : list (string * list string)) (threshold : Q) (w : World) :
  let w' := snd (find_best_category env text items threshold w) in
  same_tables w w'
  /\ (forall t, cached w t -> embedding_cache w' !! t = embedding_cache w !! t)
  /\ (forall t, embedding_cache w' !! t <> embedding_cache w !! t ->
        asked_texts text items t)
  /\ exists l,
       provider_calls w' = provider_calls w ++ l
       /\ Forall (fun t => asked_texts text items t /\ ~ cached w t) l.
Proof.
  destruct (find_best_category_footprint_rel text items threshold w)
    as (T & K & D & L).
  split; [exact T |]. split; [exact K |]. split; [| exact L].
  intros t Hne. destruct (D t) as [E | HP]; [contradiction | exact HP].
Qed.

(** *** The number of provider calls *)

Lemma calls_le_bind {A B} (n k : nat) (m : M A) (f : A -> M B) :
  preserves (calls_le n) m -> (forall a, preserves (calls_le k) (f a)) ->
  preserves (calls_le (n + k)) (bind m f).
Proof.
  intros Hm Hf w. unfold bind. specialize (Hm w).
  destruct (m w) as [[a|e] w1]; simpl in *.
  - specialize (Hf a w1). unfold calls_le in *. lia.
  - unfold calls_le in *. lia.
Qed.

Lemma calls_le_ret {A} (a : A) : preserves (calls_le 0) (ret a).
Proof. intros w. unfold calls_le. simpl. lia. Qed.

Lemma calls_le_weaken {A} (n k : nat) (m : M A) :
  n <= k -> preserves (calls_le n) m -> preserves (calls_le k) m.
Proof. intros Hnk Hm w. specialize (Hm w). unfold calls_le in *. lia. Qed.

Lemma get_embedding_calls (text : string) :
  preserves (calls_le 1) (get_embedding env text).
Proof.
  intros w. destruct (get_embedding_footprint text w) as (_ & _ & _ & l & Hl & Fl).
  unfold calls_le. rewrite Hl, length_app.
  enough (length l <= 1) by lia.
  revert Hl. unfold get_embedding.
  destruct (client env); cbv beta iota zeta delta [negb].
  2:{ simpl. intros H. apply (f_equal (@length _)) in H.
      rewrite length_app in H. lia. }
  unfold bind at 1. unfold get_cached_embedding. cbv beta iota.
  assert (Hreq :
            length (provider_calls
                      (snd (try_except
                              (embedding <- request_embedding env text ;;
                               save_embedding text embedding ;;;
                               ret embedding)
                              (fun e => raise e) w)))
            = S (length (provider_calls w))).
  { unfold try_except, bind, request_embedding, save_embedding, ret, raise.
    destruct (embeddings_create env _ text) as [emb|]; simpl;
      rewrite length_app; simpl; lia. }
  destruct (embedding_cache w !! text) as [e|].
  - destruct (list_truthy e).
    + simpl. intros H. apply (f_equal (@length _)) in H.
      rewrite length_app in H. lia.
    + intros H. apply (f_equal (@length _)) in H.
      rewrite Hreq, length_app in H. lia.
  - intros H. apply (f_equal (@length _)) in H.
    rewrite Hreq, length_app in H. lia.
Qed.

Lemma calculate_similarity_calls (text1 text2 : string) :
  preserves (calls_le 2) (calculate_similarity env text1 text2).
Proof.
  unfold calculate_similarity.
  apply (calls_le_bind 1 1); [apply get_embedding_calls |]. intros emb1.
  apply (calls_le_bind 1 0); [apply get_embedding_calls |]. intros emb2.
  apply calls_le_ret.
Qed.

Lemma max_sentence_similarity_calls (keyword : string)
    (sentences : list string) (acc : Q) :
  preserves (calls_le (2 * length sentences))
            (max_sentence_similarity env keyword sentences acc).
Proof.
  revert acc. induction sentences as [|s ss IH]; intros acc.
  - apply calls_le_ret.
  - cbn [max_sentence_similarity].
    eapply calls_le_weaken;
      [| apply (calls_le_bind 2 (2 * length ss));
         [apply calculate_similarity_calls | intros sim; apply IH]].
    simpl. lia.
Qed.

Lemma scan_keywords_calls (text : string) (sentences : list string)
    (category : string) (keywords : list string) (best : Best) :
  preserves (calls_le (2 * length sentences * length keywords))
            (scan_keywords env text sentences category keywords best).
Proof.
  revert best. induction keywords as [|k ks IH]; intros best.
  - eapply calls_le_weaken; [| apply calls_le_ret]. lia.
  - cbn [scan_keywords].
    eapply calls_le_weaken;
      [| apply (calls_le_bind (2 * length sentences)
                  (2 * length sentences * length ks));
         [apply max_sentence_similarity_calls |]].
    + simpl length. lia.
    + intros sim.
      destruct (calculate_match_score (nlp env) text k sim) as [score boosts].
      destruct best as [[bc bs] bb]. apply IH.
Qed.

Lemma scan_categories_calls (text : string) (sentences : list string)
    (items : list (string * list string)) (best : Best) :
  preserves (calls_le (2 * length sentences * length (all_keywords items)))
            (scan_categories env text sentences items best).
Proof.
  revert best. induction items as [|[c ks] items IH]; intros best.
  - eapply calls_le_weaken; [| apply calls_le_ret]. lia.
  - cbn [scan_categories].
    eapply calls_le_weaken;
      [| apply (calls_le_bind (2 * length sentences * length ks)
                  (2 * length sentences * length (all_keywords items)));
         [apply scan_keywords_calls | intros best'; apply IH]].
    unfold all_keywords. simpl. rewrite length_app. lia.
Qed.

(** X13: a categorisation makes at most two provider calls per pair of a
    sentence of the purpose and a keyword of the table; in particular none
    for the empty purpose or an empty table. *)
Theorem find_best_category_calls (text : string)
    (items : list (string * list string)) (threshold : Q) (w : World) :
  let w' := snd (find_best_category env text items threshold w) in
  length (provider_calls w')
  <= length (provider_calls w)
     + 2 * length (split_into_sentences text) * length (all_keywords items).
Proof.
  unfold find_best_category. cbv zeta.
  apply (calls_le_weaken
           (2 * length (split_into_sentences text) * length (all_keywords items)
            + 0)); [lia |].
  apply calls_le_bind; [apply scan_categories_calls |].
  intros [[bc bs] bb]. destruct (Qle_bool threshold bs); apply calls_le_ret.
Qed.

(** *** A warm cache *)

Lemma get_embedding_cached (text : string) (w : World) :
  client env = true -> cached w text ->
  exists e, get_embedding env text w = (Ok e, w).
Proof.
  intros Hc (e & He & Ht). exists e. unfold get_embedding.
  rewrite Hc. cbv beta iota zeta delta [negb].
  unfold bind, get_cached_embedding. rewrite He, Ht. reflexivity.
Qed.

Lemma max_sentence_similarity_cached (keyword : string)
    (sentences : list string) (acc : Q) (w : World) :
  client env = true -> cached w keyword ->
  (forall s, In s sentences -> cached w s) ->
  exists q, max_sentence_similarity env keyword sentences acc w = (Ok q, w).
Proof.
  intros Hc Hk. revert acc.
  induction sentences as [|s ss IH]; intros acc Hs.
  - exists acc. reflexivity.
  - cbn [max_sentence_similarity]. unfold bind at 1.
    unfold calculate_similarity, bind at 1 2.
    destruct (get_embedding_cached s w Hc (Hs s (or_introl eq_refl)))
      as (e1 & ->).
    destruct (get_embedding_cached keyword w Hc Hk) as (e2 & ->).
    unfold ret at 1. apply IH. intros s' Hs'. apply Hs. now right.
Qed.

Lemma scan_keywords_cached (text : string) (sentences : list string)
    (category : string) (keywords : list string) (best : Best) (w : World) :
  client env = true ->
  (forall t, In t sentences \/ In t keywords -> cached w t) ->
  exists best', scan_keywords env text sentences category keywords best w
                = (Ok best', w).
Proof.
  intros Hc. revert best.
  induction keywords as [|k ks IH]; intros best Hall.
  - exists best. reflexivity.
  - cbn [scan_keywords]. unfold bind at 1.
    destruct (max_sentence_similarity_cached k sentences 0%Q w Hc) as (q & ->).
    { apply Hall. right. now left. }
    { intros s Hs. apply Hall. now left. }
    destruct (calculate_match_score (nlp env) text k q) as [score boosts].
    destruct best as [[bc bs] bb]. apply IH.
    intros t [H | H]; apply Hall; [now left | right; now right].
Qed.

Lemma scan_categories_cached (text : string) (sentences : list string)
    (items : list (string * list string)) (best : Best) (w : World) :
  client env = true ->
  (forall t, In t sentences \/ In t (all_keywords items) -> cached w t) ->
  exists best', scan_categories env text sentences items best w = (Ok best', w).
Proof.
  intros Hc. revert best.
  induction items as [|[c ks] items IH]; intros best Hall.
  - exists best. reflexivity.
  - cbn [scan_categories]. unfold bind at 1.
    destruct (scan_keywords_cached text sentences c ks best w Hc) as (b & ->).
    { intros t [H | H]; apply Hall; [now left |].
      right. unfold all_keywords. simpl. apply in_or_app. now left. }
    apply IH. intros t [H | H]; apply Hall; [now left |].
    right. unfold all_keywords. simpl. apply in_or_app. now right.
Qed.

(** X14: with a client and a warm cache (a usable vector for every
    sentence of the purpose and every keyword of the table),
    [find_best_category] returns, makes no provider call and leaves the
    world exactly as it was. *)
Theorem find_best_category_warm_cache (text : string)
    (items : list (string * list string)) (threshold : Q) (w : World) :
  client env = true ->
  (forall t, asked_texts text items t -> cached w t) ->
  exists best, find_best_category env text items threshold w = (Ok best, w).
Proof.
  intros Hc Hall. unfold find_best_category. cbv zeta. unfold bind.
  destruct (scan_categories_cached text (split_into_sentences text) items
              (None, 0%Q, ∅) w Hc) as ([[bc bs] bb] & ->).
  { intros t [H | H]; apply Hall; [now left |].
    right. apply in_all_keywords, H. }
  destruct (Qle_bool threshold bs); eexists; reflexivity.
Qed.

End MatcherFootprint.

(** * The result of the matcher *)

Section MatcherResult.

Local Open Scope Q_scope.

Variable env : Env.
Variable text : string.
Variable items : list (string * list string).

Lemma calculate_match_score_le_1 (keyword : string) (base : Q) :
  fst (calculate_match_score (nlp env) text keyword base) <= 1.
Proof.
  rewrite calculate_match_score_eq. cbv zeta. cbn [fst]. apply py_min_le_r.
Qed.

Lemma scan_keywords_result (sentences : list string) (category : string)
    (all : list string) (keywords : list string) :
  In (category, all) items ->
  (forall k, In k keywords -> In k all) ->
  forall (best best' : Best) (w w' : World),
    best_ok env text items best ->
    scan_keywords env text sentences category keywords best w = (Ok best', w') ->
    best_ok env text items best'.
Proof.
  intros Hcat. induction keywords as [|k ks IH]; intros Hsub best best' w w' Hb.
  - simpl. intros [= <- _]. exact Hb.
  - cbn [scan_keywords]. unfold bind at 1.
    destruct (max_sentence_similarity env k sentences 0 w) as [[q|e] w1];
      [| discriminate].
    pose proof (calculate_match_score_le_1 k q) as Hle.
    destruct (calculate_match_score (nlp env) text k q) as [score boosts] eqn:Hs.
    destruct best as [[bc bs] bb]. cbn [fst] in Hle.
    apply IH; [intros k' Hk'; apply Hsub; now right |].
    destruct (Qltb bs score) eqn:Hlt; [| exact Hb].
    apply Qltb_lt in Hlt.
    split; [| split; [exact Hle |]].
    + destruct bc as [c|]; simpl in Hb.
      * destruct Hb as (Hpos & _). lra.
      * destruct Hb as (-> & _). exact Hlt.
    + exists all, k, q. split; [exact Hcat |]. split; [| exact Hs].
      apply Hsub. now left.
Qed.

Lemma scan_categories_result (sentences : list string)
    (rest : list (string * list string)) :
  (forall item, In item rest -> In item items) ->
  forall (best best' : Best) (w w' : World),
    best_ok env text items best ->
    scan_categories env text sentences rest best w = (Ok best', w') ->
    best_ok env text items best'.
Proof.
  induction rest as [|[c ks] rest IH]; intros Hsub best best' w w' Hb.
  - simpl. intros [= <- _]. exact Hb.
  - cbn [scan_categories]. unfold bind at 1.
    destruct (scan_keywords env text sentences c ks best w) as [[b|e] w1] eqn:Hk;
      [| discriminate].
    apply IH; [intros item Hitem; apply Hsub; now right |].
    eapply (scan_keywords_result sentences c ks ks); [| auto | exact Hb | exact Hk].
    apply Hsub. now left.
Qed.

(** X15: whenever [find_best_category] returns, whatever the provider
    answered, the result is either exactly [(None, 0, {})] or a category of
    the table together with the score and the boosts that one of its
    keywords reached on the text, the score being positive, at least the
    threshold and at most 1. *)
Theorem find_best_category_result (threshold : Q) (w w' : World) (best : Best) :
  find_best_category env text items threshold w = (Ok best, w') ->
  best = (None, 0, ∅)
  \/ exists category score boosts,
       best = (Some category, score, boosts)
       /\ threshold <= score /\ 0 < score /\ score <= 1
       /\ exists keywords keyword base,
            In (category, keywords) items /\ In keyword keywords
            /\ calculate_match_score (nlp env) text keyword base
               = (score, boosts).
Proof.
  unfold find_best_category. cbv zeta. unfold bind.
  destruct (scan_categories env text (split_into_sentences text) items
              (None, 0, ∅) w) as [[b|e] w1] eqn:Hscan; [| discriminate].
  assert (Hb : best_ok env text items b).
  { eapply (scan_categories_result _ items); [auto | | exact Hscan].
    split; reflexivity. }
  destruct b as [[bc bs] bb].
  destruct (Qle_bool threshold bs) eqn:Hthr; intros [= <- _]; [| now left].
  apply Qle_bool_iff in Hthr.
  destruct bc as [c|]; simpl in Hb.
  - right. destruct Hb as (Hpos & Hle & Hk). exists c, bs, bb. auto.
  - left. destruct Hb as (-> & ->). reflexivity.
Qed.

End MatcherResult.

(** * Synonyms *)

Section Synonyms.

Lemma size_add_one (x : string) (X : gset string) :
  size ({[ x ]} ∪ X) <= S (size X).
Proof.
  destruct (decide (x ∈ X)) as [Hin | Hnot].
  - assert ({[ x ]} ∪ X = X) as ->; [| lia].
    apply set_eq. intros y. rewrite elem_of_union, elem_of_singleton.
    split; [intros [-> | H]; assumption | now right].
  - rewrite size_union by set_solver. rewrite size_singleton. lia.
Qed.

(** The inner loop adds lemmas of the synset only, keeps what was there,
    and stays within the limit when it started below it. *)
Lemma add_synset_words_spec (limit : Z) (words : list string) :
  forall X : gset string,
    let R := add_synset_words limit words X in
    X ⊆ R
    /\ (forall x, x ∈ R -> x ∈ X \/ In x words)
    /\ ((Z.of_nat (size X) <= Z.max (limit - 1) 0)%Z ->
        (Z.of_nat (size R) <= Z.max limit 1)%Z).
Proof.
  induction words as [|l words IH]; intros X; cbn [add_synset_words]; cbv zeta.
  - split; [set_solver |]. split; [auto |]. lia.
  - pose proof (size_add_one l X) as Hsz.
    destruct (limit <=? Z.of_nat (size ({[ l ]} ∪ X)))%Z eqn:Hstop.
    + split; [apply union_subseteq_r |]. split.
      * intros x Hx. apply elem_of_union in Hx as [Hx | Hx]; [| now left].
        right. left. apply elem_of_singleton in Hx. now subst.
      * lia.
    + apply Z.leb_gt in Hstop.
      destruct (IH ({[ l ]} ∪ X)) as (Hsub & Hin & Hbound).
      split; [etrans; [apply union_subseteq_r | exact Hsub] |]. split.
      * intros x Hx. destruct (Hin x Hx) as [Hx' | Hx']; [| right; now right].
        apply elem_of_union in Hx' as [Hx' | Hx']; [| now left].
        right. left. apply elem_of_singleton in Hx'. now subst.
      * intros _. apply Hbound. lia.
Qed.

Lemma add_synsets_spec (limit : Z) (synsets : list (list string)) :
  forall X : gset string,
    let R := add_synsets limit synsets X in
    (forall x, x ∈ R -> x ∈ X \/ exists synset, In synset synsets /\ In x synset)
    /\ ((Z.of_nat (size X) <= Z.max (limit - 1) 0)%Z ->
        (Z.of_nat (size R) <= Z.max limit 1)%Z).
Proof.
  induction synsets as [|s synsets IH]; intros X; cbn [add_synsets]; cbv zeta.
  - split; [auto |]. lia.
  - destruct (add_synset_words_spec limit s X) as (_ & Hin & Hbound).
    cbv zeta in Hin, Hbound.
    destruct (limit <=? Z.of_nat (size (add_synset_words limit s X)))%Z eqn:Hstop.
    + split; [| exact Hbound].
      intros x Hx. destruct (Hin x Hx) as [Hx' | Hx']; [now left |].
      right. exists s. split; [now left | exact Hx'].
    + apply Z.leb_gt in Hstop.
      destruct (IH (add_synset_words limit s X)) as (Hin' & Hbound').
      split.
      * intros x Hx. destruct (Hin' x Hx) as [Hx' | (s' & Hs' & Hx')].
        -- destruct (Hin x Hx') as [Hx'' | Hx'']; [now left |].
           right. exists s. split; [now left | exact Hx''].
        -- right. exists s'. split; [now right | exact Hx'].
      * intros _. apply Hbound'. lia.
Qed.

(** X16: [get_synonyms] never returns the empty set; it returns at most
    [max(limit, 1)] words; and each of them is the word itself or a lemma
    of one of the first three synsets of the word. *)
Theorem get_synonyms_spec (self : NLPProcessor) (word : string) (limit : Z) :
  get_synonyms self word limit <> ∅
  /\ (Z.of_nat (size (get_synonyms self word limit)) <= Z.max limit 1)%Z
  /\ forall x, x ∈ get_synonyms self word limit ->
       x = word
       \/ exists wn synsets synset,
            wordnet self = Some wn /\ wn word = Some synsets
            /\ In synset (take 3 synsets) /\ In x synset.
Proof.
  assert (Hone : ({[ word ]} : gset string) <> ∅
                 /\ (Z.of_nat (size ({[ word ]} : gset string)) <= Z.max limit 1)%Z
                 /\ forall x, x ∈ ({[ word ]} : gset string) -> x = word).
  { split; [set_solver |]. split; [rewrite size_singleton; lia |].
    intros x Hx. now apply elem_of_singleton in Hx. }
  destruct Hone as (H1 & H2 & H3).
  unfold get_synonyms.
  destruct (wordnet self) as [wn|]; [| split; [| split]; auto].
  destruct (wn word) as [synsets|] eqn:Hwn; [| split; [| split]; auto].
  cbv zeta.
  destruct (add_synsets_spec limit (take 3 synsets) ∅) as (Hin & Hbound).
  cbv zeta in Hin, Hbound.
  destruct (bool_decide (add_synsets limit (take 3 synsets) ∅ = ∅)) eqn:He;
    [split; [| split]; auto |].
  apply bool_decide_eq_false in He.
  split; [exact He |]. split.
  - apply Hbound. rewrite size_empty. lia.
  - intros x Hx. destruct (Hin x Hx) as [Hx' | (s & Hs & Hx')]; [set_solver |].
    right. exists wn, synsets, s. auto.
Qed.

Lemma fold_left_union_spec (g : string -> gset string) (keywords : list string) :
  forall (X : gset string) (x : string),
    x ∈ fold_left (fun expanded keyword => expanded ∪ g keyword) keywords X
    <-> x ∈ X \/ exists k, In k keywords /\ x ∈ g k.
Proof.
  induction keywords as [|k ks IH]; intros X x; simpl.
  - split; [auto | intros [H | (k & [] & _)]; exact H].
  - rewrite IH. split.
    + intros [H | (k' & Hk' & Hx)].
      * apply elem_of_union in H as [H | H]; [now left |].
        right. exists k. auto.
      * right. exists k'. auto.
    + intros [H | (k' & [<- | Hk'] & Hx)].
      * left. apply elem_of_union. now left.
      * left. apply elem_of_union. now right.
      * right. exists k'. auto.
Qed.

(** X17: the expanded query is the set of the extracted keywords together
    with the synonyms of each of them, and nothing else; without a
    thesaurus it is just the set of the extracted keywords. *)
Theorem expand_query_with_synonyms_spec (self : NLPProcessor) (text : string) :
  (forall x,
     x ∈ expand_query_with_synonyms self text
     <-> In x (extract_keywords self text)
         \/ exists k, In k (extract_keywords self text)
                      /\ x ∈ get_synonyms self k 10)
  /\ (wordnet self = None ->
      expand_query_with_synonyms self text
      = list_to_set (extract_keywords self text)).
Proof.
  assert (Hspec : forall x,
             x ∈ expand_query_with_synonyms self text
             <-> In x (extract_keywords self text)
                 \/ exists k, In k (extract_keywords self text)
                              /\ x ∈ get_synonyms self k 10).
  { intros x. unfold expand_query_with_synonyms. cbv zeta.
    rewrite fold_left_union_spec, elem_of_list_to_set, list_elem_of_In.
    reflexivity. }
  split; [exact Hspec |].
  intros Hwn. apply set_eq. intros x.
  rewrite Hspec, elem_of_list_to_set, list_elem_of_In.
  split; [| now left].
  intros [H | (k & Hk & Hx)]; [exact H |].
  unfold get_synonyms in Hx. rewrite Hwn in Hx.
  apply elem_of_singleton in Hx. now subst.
Qed.

End Synonyms.

Section MatcherExamples.

(** X14 on a world whose cache holds the one text needed. *)
Lemma find_best_category_warm_cache_witness :
  client steady_env = true
  /\ exists best,
       find_best_category steady_env "rent" [("Rent", ["rent"])] 0.7 warm_world
       = (Ok best, warm_world).
Proof.
  split; [reflexivity |].
  apply (find_best_category_warm_cache steady_env "rent" [("Rent", ["rent"])]
           0.7%Q warm_world); [reflexivity |].
  assert (Hrent : cached warm_world "rent").
  { exists [1%Q]. split; vm_compute; reflexivity. }
  intros t [H | (c & ks & Hin & Ht)].
  - simpl in H. destruct H as [<- | []]. exact Hrent.
  - destruct Hin as [[= <- <-] | []]. destruct Ht as [<- | []]. exact Hrent.
Defined.

(** X15 on the example table: the text ["rent"] is given the category
    [Rent]. *)
Lemma find_best_category_result_witness :
  match find_best_category steady_env "rent" demo_keywords 0.7 demo_world with
  | (Ok best, _) =>
      best = (None, 0%Q, ∅)
      \/ exists category score boosts,
           best = (Some category, score, boosts)
           /\ (0.7 <= score)%Q /\ (0 < score)%Q /\ (score <= 1)%Q
           /\ exists keywords keyword base,
                In (category, keywords) demo_keywords /\ In keyword keywords
                /\ calculate_match_score (nlp steady_env) "rent" keyword base
                   = (score, boosts)
  | (Raise _, _) => False
  end.
Proof.
  assert (Hok : match fst (find_best_category steady_env "rent" demo_keywords
                             0.7 demo_world) with
                | Ok (Some c, _, _) => String.eqb c "Rent"
                | _ => false
                end = true) by (vm_compute; reflexivity).
  revert Hok.
  destruct (find_best_category steady_env "rent" demo_keywords 0.7 demo_world)
    as [[best|e] w'] eqn:Hr; cbn [fst]; [intros _ | discriminate].
  exact (find_best_category_result steady_env "rent" demo_keywords 0.7%Q
           demo_world w' best Hr).
Defined.

End MatcherExamples.

(** * The requests of a run *)

Section RunRequests.

Variable env : Env.
Variables start_date end_date batch : string.

Let max_polls := Z.to_nat (BANK_STATEMENT_MAX_ATTEMPTS (settings env)).












(** An account processed without exception had its statement created
    with status code 200 and a statement id, and read with status
    ['Ready'] within the attempt bound. *)
Lemma fetch_account_ok (account : string) (w w' : World) :
  fetch_account env start_date end_date batch account w = (Ok tt, w') ->
  exists statement_id,
    post_statement env (account_id_of env account) start_date end_date
    = (200%Z, Some statement_id)
    /\ exists (k : nat) (statement : Statement),
         k < max_polls
         /\ (forall i, i < k ->
               still_pending (get_statement_response env
                                (account_id_of env account) statement_id i))
         /\ get_statement_response env (account_id_of env account)
              statement_id k = Some statement
         /\ statement_status statement = Some "Ready".
Proof.
  unfold fetch_account. cbv zeta. fold (account_id_of env account).
  set (id := account_id_of env account).
  unfold bind at 1. unfold create_statement, bind, requests_post.
  destruct (post_statement env id start_date end_date) as [code resp].
  destruct (code =? 200)%Z eqn:Hcode; cbn [negb]; cbv iota;
    [| discriminate].
  apply Z.eqb_eq in Hcode. subst code.
  unfold ret at 1. cbv beta iota.
  unfold try_except_lookup, try_except.
  destruct resp as [statement_id|];
    [| unfold raise; simpl; discriminate].
  unfold ret at 1. cbv beta iota.
  set (w0 := with_requests _ w).
  unfold get_statement, bind. fold max_polls.
  destruct (get_statement_loop env id statement_id max_polls 0 None None w0)
    as [[[s r]|e] w1] eqn:Hloop;
    [| destruct e; unfold raise; simpl; discriminate].
  destruct (is_Ready s) eqn:Hs; cbn [negb]; cbv iota;
    [| unfold raise; simpl; discriminate].
  destruct r as [statement|]; [| unfold raise; simpl; discriminate].
  intros _.
  destruct (get_statement_loop_ready env id statement_id max_polls 0 None None
              w0 s (Some statement) w1 eq_refl Hloop Hs)
    as (k & st & Hk & Hp & Hrk & Hsk & [= <-] & _).
  exists statement_id. split; [reflexivity |].
  exists k, statement. auto.
Qed.

Lemma fetch_accounts_ok (accounts : list string) :
  forall w w',
    fetch_accounts env start_date end_date batch accounts w = (Ok tt, w') ->
    forall a, In a accounts ->
      exists w1 w2,
        fetch_account env start_date end_date batch a w1 = (Ok tt, w2).
Proof.
  induction accounts as [|a0 accounts IH]; intros w w' Hrun a Ha; [destruct Ha |].
  cbn [fetch_accounts] in Hrun. unfold bind in Hrun.
  destruct (fetch_account env start_date end_date batch a0 w) as [[[]|e] w1] eqn:H0;
    [| discriminate].
  destruct Ha as [<- | Ha]; [eauto | eapply IH; eassumption].
Qed.

(** X19: when a run returns normally, every configured account had its
    statement created with status code 200 and a statement id, and that
    statement was read with status ['Ready'] within the attempt bound,
    after responses that were neither ['Ready'] nor ['Error']. *)
Theorem fetch_and_save_statements_returns (w w' : World) :
  fetch_and_save_statements env start_date end_date batch w = (Ok tt, w') ->
  forall account, In account (BANK_ACCOUNTS (settings env)) ->
    exists statement_id,
      post_statement env (account_id_of env account) start_date end_date
      = (200%Z, Some statement_id)
      /\ exists (k : nat) (statement : Statement),
           (Z.of_nat k < BANK_STATEMENT_MAX_ATTEMPTS (settings env))%Z
           /\ (forall i, i < k ->
                 still_pending (get_statement_response env
                                  (account_id_of env account) statement_id i))
           /\ get_statement_response env (account_id_of env account)
                statement_id k = Some statement
           /\ statement_status statement = Some "Ready".
Proof.
  intros Hrun account Hin.
  destruct (fetch_accounts_ok _ w w' Hrun account Hin) as (w1 & w2 & Hacc).
  destruct (fetch_account_ok account w1 w2 Hacc)
    as (sid & Hpost & k & st & Hk & Hp & Hr & Hs).
  exists sid. split; [exact Hpost |]. exists k, st.
  split; [unfold max_polls in Hk; lia | auto].
Qed.

End RunRequests.

(** * The category of a stored record *)

Section StoredCategory.

Variable env : Env.

Lemma assign_category_outcome (direction : option string)
    (purpose inn : string) (w w' : World) (cat src : option string) :
  assign_category env direction purpose inn w = (Ok (cat, src), w') ->
  (cat = None /\ src = None)
  \/ exists c,
       cat = Some c
       /\ (((src = Some "default" /\ c = REVENUE_CATEGORY) \/ src = Some "nlp")
           /\ In c (expense_categories w')
           \/ src = Some "map" /\ inn <> ""
              /\ expense_mappings w !! inn = Some c).
Proof.
  unfold assign_category.
  destruct (is_direction direction "Credit").
  { unfold bind.
    destruct (expense_category_get_or_create_run REVENUE_CATEGORY w)
      as (l & -> & Hl).
    intros [= <- <- <-]. right. exists REVENUE_CATEGORY.
    split; [reflexivity |]. left. split; [left; auto | exact Hl]. }
  destruct (is_direction direction "Debit"); [| intros [= <- <- _]; now left].
  unfold bind at 1.
  pose proof (find_best_category_tables env purpose (CATEGORY_KEYWORDS env)
                (EMBEDDING_SIMILARITY_THRESHOLD (settings env)) w)
    as (_ & _ & _ & Hmap & _).
  destruct (find_best_category env purpose (CATEGORY_KEYWORDS env)
              (EMBEDDING_SIMILARITY_THRESHOLD (settings env)) w)
    as [[[[name score] boosts]|e] w1]; [| discriminate].
  simpl in Hmap.
  destruct (opt_truthy name) eqn:Hname.
  { unfold bind.
    destruct (expense_category_get_or_create_run (default "" name) w1)
      as (l & -> & Hl).
    intros [= <- <- <-]. right. exists (default "" name).
    split; [reflexivity |]. left. split; [now right | exact Hl]. }
  destruct (PyStr.truthy inn) eqn:Hinn; [| intros [= <- <- _]; now left].
  unfold bind, expense_mapping_first. rewrite Hmap.
  destruct (expense_mappings w !! inn) as [c|] eqn:Hc;
    intros [= <- <- _]; [| now left].
  right. exists c. split; [reflexivity |]. right.
  split; [reflexivity |]. split; [apply truthy_nonempty, Hinn | reflexivity].
Qed.

(** X20: a stored record has a category exactly when it has a category
    source; a category with source ['default'] (the revenue category) or
    ['nlp'] is a row of the category table after the ingestion; a category
    with source ['map'] is the one the INN mapping gives for the record's
    non-empty tax id. *)
Theorem stored_category (td : TransactionData) (account batch : string)
    (w : World) (t : Transaction) :
  let w' := snd (_save_transaction env td account batch w) in
  transactions w' = transactions w ++ [t] ->
  (expense_category t = None /\ category_source t = None)
  \/ exists c,
       expense_category t = Some c
       /\ (((category_source t = Some "default" /\ c = REVENUE_CATEGORY)
            \/ category_source t = Some "nlp")
           /\ In c (expense_categories w')
           \/ category_source t = Some "map" /\ contractor_inn t <> ""
              /\ expense_mappings w !! contractor_inn t = Some c).
Proof.
  intros w'. subst w'.
  pose proof (_save_transaction_run env td account batch w) as Hrun.
  destruct (payload_date env td) as [d|] eqn:Hd.
  2:{ rewrite Hrun. simpl. intros H. exfalso.
      apply (f_equal (@length _)) in H. rewrite length_app in H. simpl in H. lia. }
  destruct (existsb _ (transactions w)) eqn:Hdup.
  { rewrite Hrun. simpl. intros H. exfalso.
    apply (f_equal (@length _)) in H. rewrite length_app in H. simpl in H. lia. }
  destruct Hrun as (contractor & l & ->). cbn [snd].
  destruct (assign_category_run env (creditDebitIndicator td) (payload_purpose td)
              (payload_inn td) (with_contractors l w)) as ([Htr _] & _).
  destruct (assign_category env (creditDebitIndicator td) (payload_purpose td)
              (payload_inn td) (with_contractors l w))
    as [[[cat src]|ex] w2] eqn:Hcat; cbn [snd] in Htr; simpl in Htr.
  2:{ rewrite Htr. intros H. exfalso.
      apply (f_equal (@length _)) in H. rewrite length_app in H. simpl in H. lia. }
  simpl. rewrite Htr. intros H. apply app_inv_head in H.
  injection H as <-. simpl.
  exact (assign_category_outcome _ _ _ _ _ _ _ Hcat).
Qed.

End StoredCategory.

Section RunExamples.

(** X19 on a bank with the single account [B]. *)
Lemma fetch_and_save_statements_returns_witness :
  let env :=
    mkEnv (mkSettings ["B"] "044525104" 3 0.7) demo_keywords
          (mkNLPProcessor None None) demo_strptime
          true (fun _ _ => Some [1%Q]) (fun _ _ => 0.5%Q) demo_post demo_get in
  fst (fetch_and_save_statements env "2025-06-11" "2025-06-12" "b1" demo_world)
  = Ok tt
  /\ exists statement_id,
       post_statement env (account_id_of env "B") "2025-06-11" "2025-06-12"
       = (200%Z, Some statement_id)
       /\ exists (k : nat) (statement : Statement),
            (Z.of_nat k < BANK_STATEMENT_MAX_ATTEMPTS (settings env))%Z
            /\ (forall i, i < k ->
                  still_pending (get_statement_response env
                                   (account_id_of env "B") statement_id i))
            /\ get_statement_response env (account_id_of env "B")
                 statement_id k = Some statement
            /\ statement_status statement = Some "Ready".
Proof.
  intros env.
  assert (Hok : fst (fetch_and_save_statements env "2025-06-11" "2025-06-12"
                       "b1" demo_world) = Ok tt) by (vm_compute; reflexivity).
  split; [exact Hok |].
  destruct (fetch_and_save_statements env "2025-06-11" "2025-06-12" "b1"
              demo_world) as [[[]|e] w'] eqn:Hrun; [| discriminate].
  apply (fetch_and_save_statements_returns env "2025-06-11" "2025-06-12" "b1"
           demo_world w' Hrun "B").
  simpl. auto.
Defined.

(** X20 on the incoming example payload: the revenue category is in the
    table after the ingestion. *)
Lemma stored_category_witness :
  let w' := snd (_save_transaction steady_env demo_credit "B" "b1" demo_world) in
  exists t,
    transactions w' = transactions demo_world ++ [t]
    /\ category_source t = Some "default"
    /\ In REVENUE_CATEGORY (expense_categories w').
Proof.
  intros w'.
  set (t := ingested_record demo_credit "B" "b1" (mkDateTime 2025 6 11)
              (Some (mkContractor 0 "Buyer" (Some "7702") "044525225"))
              (Some REVENUE_CATEGORY) (Some "default")).
  assert (Ht : transactions w' = transactions demo_world ++ [t])
    by (vm_compute; reflexivity).
  exists t. split; [exact Ht |]. split; [reflexivity |].
  destruct (stored_category steady_env demo_credit "B" "b1" demo_world t Ht)
    as [[Hn _] | (c & Hc & [[[[_ ->] | Hsrc] Hin] | (Hsrc & _)])];
    try discriminate.
  exact Hin.
Defined.

End RunExamples.

(** * Words and lower case *)

Section Words.















End Words.

(** * Boosts without a morphological analyser *)

Section LemmaBoost.

Variable self : NLPProcessor.
Hypothesis no_morph : morph self = None.




End LemmaBoost.

Section LemmaBoostExample.


End LemmaBoostExample.

(** * Stored text fields are trimmed *)

Section Trimmed.







End Trimmed.

(** * The records of a batch *)

Section BatchRecords.

Variable env : Env.

(** X23: the records a batch stores are built from payloads of the batch,
    at most one per payload and in the order of the payloads: the new
    records are the records of a sublist of the batch, each with the
    parsed date and the stripped fields of its payload. *)
Theorem save_entries_records (entries : list TransactionData)
    (account batch : string) (w : World) :
  exists (kept : list TransactionData) (l : list Transaction),
    sublist kept entries
    /\ transactions (snd (save_entries env entries account batch w))
       = transactions w ++ l
    /\ Forall2 (fun td t =>
                  exists d contractor cat src,
                    payload_date env td = Some d
                    /\ t = ingested_record td account batch d contractor cat src)
               kept l.
Proof.
  revert w. induction entries as [|td entries IH]; intros w.
  - exists [], []. simpl. rewrite app_nil_r.
    split; [constructor |]. split; [reflexivity | constructor].
  - cbn [save_entries]. unfold bind.
    destruct (_save_transaction_transactions env td account batch w)
      as (Hok & Hcase).
    destruct (_save_transaction env td account batch w) as [[[]|e] w1];
      simpl in Hok; [| discriminate].
    cbn [snd] in Hcase.
    destruct (IH w1) as (kept & l & Hsub & Htr & Hall).
    destruct Hcase as [Hsame | (d & c & cat & src & Hd & _ & Happ & _)].
    + exists kept, l. split; [now apply sublist_cons |].
      split; [now rewrite Htr, Hsame | exact Hall].
    + exists (td :: kept),
        (ingested_record td account batch d c cat src :: l).
      split; [now apply sublist_skip |].
      split; [rewrite Htr, Happ, <- app_assoc; reflexivity |].
      constructor; [| exact Hall]. exists d, c, cat, src. auto.
Qed.

End BatchRecords.

(** * The invariants on the example bank *)

Section InvariantExamples.

(** X1 on a configuration that allows no poll at all. *)
Lemma get_statement_poll_bound_witness :
  let env :=
    mkEnv (mkSettings ["B"] "044525104" 0 0.7) demo_keywords
          (mkNLPProcessor None None) demo_strptime
          true (fun _ _ => Some [1%Q]) (fun _ _ => 0.5%Q) demo_post demo_get in
  (BANK_STATEMENT_MAX_ATTEMPTS (settings env) <= 0)%Z
  /\ get_statement env "B/044525104" "s1" demo_world
     = (Raise StatementTimeout, demo_world).
Proof.
  intros env.
  assert (Hmax : (BANK_STATEMENT_MAX_ATTEMPTS (settings env) <= 0)%Z)
    by (simpl; lia).
  split; [exact Hmax |].
  exact (proj2 (get_statement_poll_bound env "B/044525104" "s1" demo_world) Hmax).
Defined.

(** X6 on the bank with the accounts [B] and [E]: the two contractors of
    the statement of [B] are created, with distinct tax ids. *)
Lemma fetch_and_save_statements_contractors_witness :
  let run :=
    fetch_and_save_statements open_env "2025-06-11" "2025-06-12" "b1" demo_world in
  NoDup (contractor_inns demo_world)
  /\ map contractor_inn_field (contractors (snd run)) = [Some "7702"; Some "7701"]
  /\ NoDup (contractor_inns (snd run)).
Proof.
  intros run.
  assert (Hnd : NoDup (contractor_inns demo_world)) by constructor.
  split; [exact Hnd |]. split; [vm_compute; reflexivity |].
  exact (proj2 (fetch_and_save_statements_contractors open_env "2025-06-11"
                  "2025-06-12" "b1" demo_world) Hnd).
Defined.

(** X7 on the same run: the revenue category is created, the mapped
    category of the outgoing payload is not. *)
Lemma fetch_and_save_statements_categories_witness :
  let run :=
    fetch_and_save_statements open_env "2025-06-11" "2025-06-12" "b1" demo_world in
  NoDup (expense_categories demo_world)
  /\ expense_categories (snd run) = [REVENUE_CATEGORY]
  /\ NoDup (expense_categories (snd run)).
Proof.
  intros run.
  assert (Hnd : NoDup (expense_categories demo_world)) by constructor.
  split; [exact Hnd |]. split; [vm_compute; reflexivity |].
  exact (proj2 (proj2 (fetch_and_save_statements_categories open_env "2025-06-11"
                         "2025-06-12" "b1" demo_world)) Hnd).
Defined.

End InvariantExamples.
